(** * Oblivilog: chat-log parsing and aggregation

    A shallow embedding of [Oblivilog.py].  Python [str] values are
    [string]s, a pandas [DataFrame] is a record of column labels and rows, a
    pandas [Series] is an ordered list of (index, value) pairs, raised
    exceptions are the left summand of a result type, and logging and file
    writes are collected in an event trace. *)

From Stdlib Require Import Strings.String Strings.Ascii Lists.List Arith.Arith
  Bool.Bool Sorting.Permutation Sorting.Sorted Numbers.DecimalString Lia.
Import ListNotations.

Local Open Scope list_scope.
Local Open Scope string_scope.

(** ** Python string primitives *)

Module Str.

(** The line feed character, the only one a regex [.] refuses. *)
Definition LF : ascii := "010"%char.

Definition newline : string := String LF "".

(** [s.startswith(p)] returning what follows the prefix. *)
Fixpoint strip_prefix (p s : string) : option string :=
  match p, s with
  | EmptyString, _ => Some s
  | String _ _, EmptyString => None
  | String a p', String b s' =>
      if Ascii.eqb a b then strip_prefix p' s' else None
  end.

(** [sub in s] *)
Fixpoint contains (sub s : string) : bool :=
  match strip_prefix sub s with
  | Some _ => true
  | None =>
      match s with
      | EmptyString => false
      | String _ s' => contains sub s'
      end
  end.

(** [s.count(sub)]: occurrences are searched from the left and the search
    resumes after the end of each occurrence found, so occurrences never
    overlap.  For the empty [sub] Python answers [len(s) + 1].  The fuel is
    the number of positions still to visit. *)
Fixpoint count_from (fuel : nat) (sub s : string) : nat :=
  match fuel with
  | O => 0
  | S fuel' =>
      match strip_prefix sub s with
      | Some rest => S (count_from fuel' sub rest)
      | None =>
          match s with
          | EmptyString => 0
          | String _ s' => count_from fuel' sub s'
          end
      end
  end.

Definition count (s sub : string) : nat :=
  match sub with
  | EmptyString => S (String.length s)
  | _ => count_from (S (String.length s)) sub s
  end.

(** ASCII part of [str.lower()]. *)
Definition lower_ascii (c : ascii) : ascii :=
  let n := nat_of_ascii c in
  if ((65 <=? n)%nat && (n <=? 90)%nat)%bool then ascii_of_nat (n + 32) else c.

Fixpoint lower (s : string) : string :=
  match s with
  | EmptyString => EmptyString
  | String c s' => String (lower_ascii c) (lower s')
  end.

(** [sep.join(parts)] *)
Fixpoint join (sep : string) (parts : list string) : string :=
  match parts with
  | [] => ""
  | [p] => p
  | p :: ps => p ++ sep ++ join sep ps
  end.

(** [str(n)] for a non-negative integer. *)
Definition of_nat (n : nat) : string :=
  NilZero.string_of_uint (Nat.to_uint n).

(** Digit grouping of the [:,] format specification: a comma before every
    group of three digits counted from the right. *)
Fixpoint group3 (digits : list ascii) : list ascii :=
  match digits with
  | a :: b :: c :: ((_ :: _) as more) => a :: b :: c :: ","%char :: group3 more
  | _ => digits
  end.

Definition format_thousands (n : nat) : string :=
  string_of_list_ascii
    (rev (group3 (rev (list_ascii_of_string (of_nat n))))).

End Str.

(** ** The regular expression of [parse_chat_data]

    [\[(?P<timestamp>.+?)\] (?P<username>.+?): (?P<message>.+)] matched with
    [pattern.match], that is anchored at the start of the line only.  The
    matcher is the backtracking one of Python's [re]: a lazy [.+?] takes one
    character, then tries what follows, and takes one more character each
    time what follows fails; the final greedy [.+] runs to the end of the
    line. *)

Module Re.

(** [.] without the DOTALL flag *)
Definition dot (c : ascii) : bool := negb (Ascii.eqb c Str.LF).

Fixpoint all_dot (s : string) : bool :=
  match s with
  | EmptyString => true
  | String c s' => dot c && all_dot s'
  end.

(** [(.+?)delim<k>]: [acc] is what the group has taken so far. *)
Fixpoint lazy_plus_then {A : Type} (delim : string)
    (k : string -> string -> option A) (acc s : string) : option A :=
  match s with
  | EmptyString => None
  | String c s' =>
      if dot c then
        let acc' := acc ++ String c "" in
        match Str.strip_prefix delim s' with
        | Some rest =>
            match k acc' rest with
            | Some r => Some r
            | None => lazy_plus_then delim k acc' s'
            end
        | None => lazy_plus_then delim k acc' s'
        end
      else None
  end.

(** The longest run of [.] characters at the head of [s]. *)
Fixpoint dot_run (s : string) : string :=
  match s with
  | EmptyString => EmptyString
  | String c s' => if dot c then String c (dot_run s') else EmptyString
  end.

(** [(.+)] at the end of the pattern *)
Definition greedy_plus (s : string) : option string :=
  match dot_run s with
  | EmptyString => None
  | m => Some m
  end.

End Re.

(** ** Records and frames *)

(** One [match.groupdict()] *)
Record entry : Type := mk_entry {
  timestamp : string;
  username : string;
  message : string
}.

(** The three column labels, in the order of the named groups. *)
Definition entry_columns : list string := ["timestamp"; "username"; "message"].

(** A [DataFrame] of chat entries: its column labels and its rows.  A frame
    without columns has no rows. *)
Record DataFrame : Type := mk_df {
  columns : list string;
  rows : list entry
}.

(** A [Series] with a string index, in index order. *)
Definition Series (V : Type) : Type := list (string * V).

(** The exceptions the pipeline can meet.  [UnicodeDecodeError] is a
    [ValueError]; failures of [open], [read] and [makedirs] are [OSError]s. *)
Inductive exn : Type :=
| KeyError (key : string)
| ValueError (msg : string)
| OSError (msg : string).

(** [str(e)] *)
Definition exn_str (e : exn) : string :=
  match e with
  | KeyError key => "'" ++ key ++ "'"
  | ValueError msg => msg
  | OSError msg => msg
  end.

Definition result (A : Type) : Type := (exn + A)%type.

(** [(?P<message>.+)], the end of the pattern: the match is complete. *)
Definition message_group (ts un rest : string) : option entry :=
  match Re.greedy_plus rest with
  | Some msg => Some (mk_entry ts un msg)
  | None => None
  end.

(** [(?P<username>.+?): ] and what follows *)
Definition username_group (ts rest : string) : option entry :=
  Re.lazy_plus_then ": " (message_group ts) "" rest.

(** [pattern.match(line)] followed by [match.groupdict()] *)
Definition pattern_match (line : string) : option entry :=
  match line with
  | String "["%char s => Re.lazy_plus_then "] " username_group "" s
  | _ => None
  end.

Definition gift_sub : string := "gifted a Tier 1 sub to".
Definition is_gifting : string := "is gifting".

(** The body of the [for line in chat_data] loop: the entries one line
    appends to [chat_entries]. *)
Definition parse_line (line : string) : list entry :=
  match pattern_match line with
  | Some e =>
      if negb (Str.contains gift_sub (message e)
               || Str.contains is_gifting (message e))
      then [e] else []
  | None => []
  end.

Definition parse_lines (chat_data : list string) : list entry :=
  flat_map parse_line chat_data.

(** [file.readlines()] on the decoded text, in which text mode has already
    turned every line ending into one line feed: every line keeps its
    terminator, and a last line without one is kept as it is. *)
Fixpoint readlines_from (cur text : string) : list string :=
  match text with
  | EmptyString =>
      match cur with
      | EmptyString => []
      | _ => [cur]
      end
  | String c text' =>
      if Ascii.eqb c Str.LF
      then (cur ++ Str.newline) :: readlines_from "" text'
      else readlines_from (cur ++ String c "") text'
  end.

Definition readlines (text : string) : list string := readlines_from "" text.

(** ** pandas operations used by the pipeline *)

Module Pd.

(** [pd.DataFrame(chat_entries)]: the columns are the keys of the dicts, so a
    frame built from an empty list has no column at all. *)
Definition DataFrame_of (chat_entries : list entry) : DataFrame :=
  match chat_entries with
  | [] => mk_df [] []
  | _ => mk_df entry_columns chat_entries
  end.

(** [pd.DataFrame(columns=['timestamp', 'username', 'message'])] *)
Definition DataFrame_columns : DataFrame := mk_df entry_columns [].

Definition has_label (label : string) (labels : list string) : bool :=
  existsb (String.eqb label) labels.

(** Column labels of a concatenation: in order of first appearance. *)
Definition union_labels (a b : list string) : list string :=
  (a ++ filter (fun l => negb (has_label l a)) b)%list.

(** [pd.concat(dfs, ignore_index=True)] *)
Definition concat (dfs : list DataFrame) : result DataFrame :=
  match dfs with
  | [] => inl (ValueError "No objects to concatenate")
  | _ =>
      inr (mk_df (fold_left union_labels (map columns dfs) [])
                 (flat_map rows dfs))
  end.

Definition field (label : string) : option (entry -> string) :=
  if label =? "timestamp" then Some timestamp
  else if label =? "username" then Some username
  else if label =? "message" then Some message
  else None.

(** [df[label]] *)
Definition getitem (df : DataFrame) (label : string) : result (list string) :=
  if has_label label (columns df) then
    match field label with
    | Some f => inr (map f (rows df))
    | None => inl (KeyError label)
    end
  else inl (KeyError label).

(** Stable sort by descending key: what [sorted(..., reverse=True)] and the
    descending [sort_values] of [value_counts] do; equal keys keep their
    relative order. *)
Fixpoint insert_desc {A : Type} (key : A -> nat) (x : A) (l : list A) : list A :=
  match l with
  | [] => [x]
  | y :: l' =>
      if (key x <? key y)%nat then y :: insert_desc key x l'
      else x :: l
  end.

Fixpoint sort_desc {A : Type} (key : A -> nat) (l : list A) : list A :=
  match l with
  | [] => []
  | x :: l' => insert_desc key x (sort_desc key l')
  end.

(** One more occurrence of [u]; a new label goes last. *)
Fixpoint bump (u : string) (acc : Series nat) : Series nat :=
  match acc with
  | [] => [(u, 1)]
  | (v, n) :: acc' =>
      if u =? v then (v, S n) :: acc' else (v, n) :: bump u acc'
  end.

Definition tally (values : list string) : Series nat :=
  fold_left (fun acc u => bump u acc) values [].

(** [Series.value_counts()]: one entry per distinct value, labelled by the
    value as it is, most frequent first. *)
Definition value_counts (values : list string) : Series nat :=
  sort_desc snd (tally values).

(** [Series.head(n)] *)
Definition head {V : Type} (n : nat) (s : Series V) : Series V := firstn n s.

(** [Series.sum()] *)
Definition sum (s : Series nat) : nat := list_sum (map snd s).

(** [Series.get(key, default)] *)
Fixpoint get {V : Type} (s : Series V) (key : string) (default : V) : V :=
  match s with
  | [] => default
  | (k, v) :: s' => if key =? k then v else get s' key default
  end.

(** Membership of a label in the index. *)
Definition index {V : Type} (s : Series V) : list string := map fst s.

(** The sorted distinct values of a series, ascending: the group keys of
    [groupby]. *)
Fixpoint insert_key (k : nat) (ks : list nat) : list nat :=
  match ks with
  | [] => [k]
  | j :: ks' =>
      if (k <? j)%nat then k :: ks
      else if (k =? j)%nat then ks
      else j :: insert_key k ks'
  end.

Definition group_keys (s : Series nat) : list nat :=
  fold_right insert_key [] (map snd s).

(** [s.groupby(s).apply(lambda x: x.index.tolist()).to_dict()]: for every
    distinct value, ascending, the labels carrying it in series order. *)
Definition groupby_index (s : Series nat) : list (nat * list string) :=
  map (fun k => (k, map fst (filter (fun p => (snd p =? k)%nat) s)))
      (group_keys s).

(** Assignment [d[key] = v] in an insertion-ordered dict. *)
Fixpoint dict_set {V : Type} (key : string) (v : V) (d : Series V) : Series V :=
  match d with
  | [] => [(key, v)]
  | (k, w) :: d' =>
      if key =? k then (k, v) :: d' else (k, w) :: dict_set key v d'
  end.

End Pd.

(** ** Aggregation *)

(** [chat_df['username'].value_counts()] *)
Definition analyze_data (chat_df : DataFrame) : result (Series nat) :=
  match Pd.getitem chat_df "username" with
  | inr names => inr (Pd.value_counts names)
  | inl e => inl e
  end.

(** The dict comprehension of [count_emote_usage]: for every emote in turn,
    the total of [x.count(emote)] over the message column. *)
Definition count_emote_usage (chat_df : DataFrame) (emotes : list string)
  : result (Series nat) :=
  fold_left
    (fun acc emote =>
       match acc with
       | inl e => inl e
       | inr d =>
           match Pd.getitem chat_df "message" with
           | inl e => inl e
           | inr msgs =>
               inr (Pd.dict_set emote
                      (list_sum (map (fun x => Str.count x emote) msgs)) d)
           end
       end)
    emotes (inr []).

(** ** The grouped user listing *)

Definition sorted_grouped (message_count : Series nat)
  : list (nat * list string) :=
  Pd.sort_desc fst (Pd.groupby_index message_count).

(** [users[:-1]] *)
Definition but_last (users : list string) : list string := removelast users.

(** One [<li>] line of [save_user_list_to_file].  The groups of
    [sorted_grouped] are never empty, so [users[-1]] is always there. *)
Definition group_line (count : nat) (users : list string) : string :=
  match users with
  | [u] => "<li>" ++ u ++ ": " ++ Str.of_nat count ++ " messages</li>" ++ Str.newline
  | [u; v] =>
      "<li>" ++ u ++ " and " ++ v ++ ": " ++ Str.of_nat count
      ++ " messages each</li>" ++ Str.newline
  | _ =>
      "<li>" ++ (Str.join ", " (but_last users) ++ " and " ++ last users "")
      ++ ": " ++ Str.of_nat count ++ " messages each</li>" ++ Str.newline
  end.

Definition user_list_lines (message_count : Series nat) : list string :=
  map (fun g => group_line (fst g) (snd g)) (sorted_grouped message_count).

(** ** Effects: logging, the file system and exceptions *)

(** What a run leaves behind, in program order. *)
Record chart : Type := mk_chart {
  chart_x_range : list string;
  chart_counts : list nat;
  chart_counts_formatted : list string;
  chart_title : string
}.

Inductive event : Type :=
| LogInfo (msg : string)
| LogWarning (msg : string)
| LogError (msg : string)
| MakeDirs (path : string)
| WriteText (path : string) (lines : list string)
| AppendText (path : string) (lines : list string)
| WriteChart (path : string) (c : chart).

(** A computation emits events and then returns or raises. *)
Definition M (A : Type) : Type := (list event * result A)%type.

Definition ret {A : Type} (a : A) : M A := ([], inr a).
Definition raise {A : Type} (e : exn) : M A := ([], inl e).
Definition emit (ev : event) : M unit := ([ev], inr tt).
Definition lift {A : Type} (r : result A) : M A := ([], r).

Definition bind {A B : Type} (m : M A) (f : A -> M B) : M B :=
  match m with
  | (t, inl e) => (t, inl e)
  | (t, inr a) => let (t', r) := f a in ((t ++ t')%list, r)
  end.

(** [try: m except Exception as e: handler(e)] *)
Definition try_except {A : Type} (m : M A) (handler : exn -> M A) : M A :=
  match m with
  | (t, inl e) => let (t', r) := handler e in ((t ++ t')%list, r)
  | (t, inr a) => (t, inr a)
  end.

Notation "x <- m ;; k" := (bind m (fun x => k))
  (at level 61, m at next level, right associativity).
Notation "m ;;; k" := (bind m (fun _ => k))
  (at level 61, right associativity).

(** [for x in xs: body(x)] *)
Fixpoint for_each {A : Type} (xs : list A) (body : A -> M unit) : M unit :=
  match xs with
  | [] => ret tt
  | x :: xs' => body x ;;; for_each xs' body
  end.

(** The file system as the run finds it. *)
Record file_system : Type := mk_fs {
  glob_txt : string -> list string;      (* glob(join(dir, '*.txt')) *)
  read_text : string -> result string;   (* open, decode and read a file *)
  open_w : string -> option exn;         (* opening for writing fails *)
  makedirs : string -> option exn        (* os.makedirs(exist_ok=True) fails *)
}.

(** [os.path.join(a, b)] for a relative [b] *)
Definition path_join (a b : string) : string :=
  match a with
  | EmptyString => b
  | _ =>
      match Str.strip_prefix "/" (String.string_of_list_ascii
                                    (rev (String.list_ascii_of_string a))) with
      | Some _ => a ++ b
      | None => a ++ "/" ++ b
      end
  end.

(** [s.rsplit('.', 1)[0]]: what precedes the last dot, or all of [s]. *)
Fixpoint before_last_dot (s : string) : option string :=
  match s with
  | EmptyString => None
  | String c s' =>
      match before_last_dot s' with
      | Some p => Some (String c p)
      | None => if Ascii.eqb c "."%char then Some "" else None
      end
  end.

Definition rsplit_dot_head (s : string) : string :=
  match before_last_dot s with
  | Some p => p
  | None => s
  end.

(** [max(values)] of the builtin, which refuses an empty sequence. *)
Definition py_max (values : list nat) : result nat :=
  match values with
  | [] => inl (ValueError "max() arg is an empty sequence")
  | v :: vs => inr (fold_left Nat.max vs v)
  end.

Definition TOP_USERS_COUNT : nat := 50.
Definition TARGET_USERS : list string := [""].

Definition emotes : list string :=
  ["oblivi118WINK"; "oblivi118Lighter"; "oblivi118Hands"; "oblivi118Gun";
   "oblivi118Cozy"; "oblivi118Cookie"; "oblivi118Lurking"; "oblivi118Giggle";
   "oblivi118Sip"; "oblivi118Pat"; "oblivi118Sing"; "oblivi118Heart";
   "oblivi118Blush"; "oblivi118Huh"; "oblivi118Lol"; "oblivi118Hehe";
   "oblivi118What"; "oblivi118Evil"; "oblivi118Zzz"; "oblivi118Tea"].

Section Pipeline.

Variable fs : file_system.

(** [sanitise.modify_html_files], a module that is not part of the program
    text: any computation on the html directory. *)
Variable modify_html_files : string -> M unit.

Definition open_write (path : string) (lines : list string) : M unit :=
  match open_w fs path with
  | Some e => raise e
  | None => emit (WriteText path lines)
  end.

Definition open_append (path : string) (lines : list string) : M unit :=
  match open_w fs path with
  | Some e => raise e
  | None => emit (AppendText path lines)
  end.

Definition os_makedirs (path : string) : M unit :=
  match makedirs fs path with
  | Some e => raise e
  | None => emit (MakeDirs path)
  end.

(** The [try] holds the reading only, and its [except] branch returns from
    the function. *)
Definition parse_chat_data (file_path : string) : M DataFrame :=
  match read_text fs file_path with
  | inl e =>
      emit (LogError ("Error reading file " ++ file_path ++ ": " ++ exn_str e)) ;;;
      ret Pd.DataFrame_columns
  | inr chat_data =>
      let chat_entries := parse_lines (readlines chat_data) in
      ret (Pd.DataFrame_of chat_entries)
  end.

(** The loop of [concatenate_dfs], filling [dfs]. *)
Fixpoint parse_all (file_paths : list string) : M (list DataFrame) :=
  match file_paths with
  | [] => ret []
  | file_path :: more =>
      df <- parse_chat_data file_path ;;
      dfs <- parse_all more ;;
      ret (df :: dfs)
  end.

Definition concatenate_dfs (file_paths : list string) : M DataFrame :=
  dfs <- parse_all file_paths ;;
  lift (Pd.concat dfs).

Definition chart_title_of (top_users : Series nat) : string :=
  "Top Users by Message Count (Total Messages: "
  ++ Str.format_thousands (Pd.sum top_users) ++ ")".

(** The figure of [visualize_top_users] without its styling; the upper end of
    the y range, [max_count * 1.1], is a float and is left out, the call of
    [max] that computes it is not. *)
Definition visualize_top_users (top_users : Series nat) (output_path : string)
  : M unit :=
  _ <- lift (py_max (map snd top_users)) ;;
  let c := mk_chart (map fst top_users) (map snd top_users)
                    (map Str.format_thousands (map snd top_users))
                    (chart_title_of top_users) in
  let output_html := rsplit_dot_head output_path ++ ".html" in
  match open_w fs output_html with
  | Some e => raise e
  | None => emit (WriteChart output_html c)
  end.

Definition save_user_list_to_file (message_count : Series nat)
    (filename : string) : M unit :=
  try_except
    (open_write filename (user_list_lines message_count))
    (fun e =>
       emit (LogError ("Error writing to file " ++ filename ++ ": " ++ exn_str e))).

Definition append_totals_to_file (message_count_per_user : Series nat)
    (filename : string) : M unit :=
  open_append filename
    [Str.newline ++ "Total Messages Sent: "
       ++ Str.of_nat (Pd.sum message_count_per_user) ++ Str.newline;
     "Total Participants: "
       ++ Str.of_nat (List.length message_count_per_user) ++ Str.newline].

Definition save_emote_usage_to_file (emote_usage : Series nat)
    (filename : string) : M unit :=
  try_except
    (open_write filename
       (map (fun p => fst p ++ ": " ++ Str.of_nat (snd p) ++ Str.newline)
            emote_usage))
    (fun e =>
       emit (LogError ("Error writing to file " ++ filename ++ ": " ++ exn_str e))).

Definition process_streamer_data (streamer_path : string) : M unit :=
  emit (LogInfo ("Processing data for streamer: " ++ streamer_path)) ;;;
  let output_dir := streamer_path in
  let html_dir := path_join streamer_path "html" in
  os_makedirs output_dir ;;;
  os_makedirs html_dir ;;;
  let file_paths := glob_txt fs streamer_path in
  match file_paths with
  | [] => emit (LogWarning ("No chat files found in " ++ streamer_path))
  | _ =>
      chat_df <- concatenate_dfs file_paths ;;
      (* chat_df['timestamp'] = pd.to_datetime(chat_df['timestamp'], ...,
         errors='coerce'): the column must be there; the converted values are
         read by nothing below *)
      _ <- lift (Pd.getitem chat_df "timestamp") ;;
      message_count_per_user <- lift (analyze_data chat_df) ;;
      let top_users := Pd.head TOP_USERS_COUNT message_count_per_user in
      visualize_top_users top_users (path_join output_dir "top_users.png") ;;;
      emote_usage <- lift (count_emote_usage chat_df emotes) ;;
      save_user_list_to_file message_count_per_user
        (path_join output_dir "user_message_counts.txt") ;;;
      append_totals_to_file message_count_per_user
        (path_join output_dir "user_message_counts.txt") ;;;
      let sorted_emote_usage := Pd.sort_desc snd emote_usage in
      save_emote_usage_to_file sorted_emote_usage
        (path_join output_dir "emote_usage.txt") ;;;
      for_each TARGET_USERS
        (fun user =>
           let count := Pd.get message_count_per_user (Str.lower user) 0 in
           emit (LogInfo ("Final count for " ++ user ++ ": " ++ Str.of_nat count))) ;;;
      modify_html_files html_dir
  end.

End Pipeline.

(** ** The entry point

    [main] lists [chattrans/*], keeps the directories and processes them in
    turn; [found] is what the glob returns and [isdir] is [os.path.isdir]. *)
Definition main (fs : file_system) (modify_html_files : string -> M unit)
    (found : list string) (isdir : string -> bool) : M unit :=
  let streamer_dirs := filter isdir found in
  match streamer_dirs with
  | [] => emit (LogWarning "No streamer directories found in chattrans/")
  | _ =>
      for_each streamer_dirs
        (fun streamer_dir =>
           process_streamer_data fs modify_html_files streamer_dir)
  end.

(** ** Vocabulary of the statements *)

(** A terminator is nothing or one line feed. *)
Definition line_end (eol : string) : Prop := eol = "" \/ eol = Str.newline.

(** What one file contributes to the log, and what it writes to the logger. *)
Definition file_records (fs : file_system) (file_path : string) : list entry :=
  match read_text fs file_path with
  | inr chat_data => parse_lines (readlines chat_data)
  | inl _ => []
  end.

Definition file_log (fs : file_system) (file_path : string) : list event :=
  match read_text fs file_path with
  | inr _ => []
  | inl e =>
      [LogError ("Error reading file " ++ file_path ++ ": " ++ exn_str e)]
  end.

(** A frame of the loader has either no column and no row, or the three
    entry columns. *)
Definition loader_frame (df : DataFrame) : Prop :=
  (columns df = [] /\ rows df = []) \/ columns df = entry_columns.

(** The group of one count: the users carrying it, in series order. *)
Definition group_of (s : Series nat) (k : nat) : nat * list string :=
  (k, map fst (filter (fun p => (snd p =? k)%nat) s)).

(** The occurrences of [sub] in [s] counted at every position, overlapping
    ones included. *)
Fixpoint occurrences (sub s : string) : nat :=
  (match Str.strip_prefix sub s with Some _ => 1 | None => 0 end)
  + match s with
    | EmptyString => 0
    | String _ s' => occurrences sub s'
    end.

(** The total the comprehension computes for one emote. *)
Definition emote_total (chat_df : DataFrame) (emote : string) : nat :=
  list_sum (map (fun x => Str.count x emote) (map message (rows chat_df))).

Definition emote_step (chat_df : DataFrame) (d : Series nat) (emote : string)
  : Series nat :=
  Pd.dict_set emote (emote_total chat_df emote) d.

(** The records of a run over a streamer directory, and what every run logs
    and creates before it touches them. *)
Definition run_records (fs : file_system) (streamer_path : string)
  : list entry :=
  flat_map (file_records fs) (glob_txt fs streamer_path).

Definition run_prefix (fs : file_system) (streamer_path : string)
  : list event :=
  ([LogInfo ("Processing data for streamer: " ++ streamer_path);
    MakeDirs streamer_path;
    MakeDirs (path_join streamer_path "html")]
   ++ flat_map (file_log fs) (glob_txt fs streamer_path))%list.

(** The chart of a series of top users. *)
Definition chart_of (top_users : Series nat) : chart :=
  mk_chart (map fst top_users) (map snd top_users)
           (map Str.format_thousands (map snd top_users))
           (chart_title_of top_users).

(** The lines of the emote file. *)
Definition emote_lines (emote_usage : Series nat) : list string :=
  map (fun p => fst p ++ ": " ++ Str.of_nat (snd p) ++ Str.newline)
      emote_usage.

(** The two lines of [append_totals_to_file]. *)
Definition totals_lines (messages participants : nat) : list string :=
  [Str.newline ++ "Total Messages Sent: " ++ Str.of_nat messages ++ Str.newline;
   "Total Participants: " ++ Str.of_nat participants ++ Str.newline].

(** What the [except] branch of a writer logs. *)
Definition write_error (filename : string) (e : exn) : event :=
  LogError ("Error writing to file " ++ filename ++ ": " ++ exn_str e).

(** ** Sample inputs *)

(** A directory with two readable logs around one that cannot be decoded. *)
Definition demo_fs : file_system :=
  mk_fs
    (fun _ => ["chattrans/s/1.txt"; "chattrans/s/2.txt"; "chattrans/s/3.txt"])
    (fun file_path =>
       if file_path =? "chattrans/s/1.txt" then
         inr ("[12:00:01] Bob: hello" ++ Str.newline
              ++ "[12:00:02] Ann: Ann is gifting 5 subs" ++ Str.newline
              ++ "[12:00:03] bob: again" ++ Str.newline)
       else if file_path =? "chattrans/s/3.txt" then
         inr ("-- log opened --" ++ Str.newline ++ "[12:05:00] Ann: hi Bob")
       else inl (ValueError "'utf-8' codec can't decode byte 0xff"))
    (fun _ => None)
    (fun _ => None).

Definition demo_log : DataFrame :=
  mk_df entry_columns
    [mk_entry "12:00:01" "Bob" "aaa"; mk_entry "12:00:02" "Ann" "abc abc"].

(** One log file and nothing else in the directory. *)
Definition single_file_fs (content : result string) : file_system :=
  mk_fs (fun _ => ["chattrans/s/chat.txt"]) (fun _ => content)
        (fun _ => None) (fun _ => None).

(** A log of [n] lines, each from a different user. *)
Fixpoint chat_text (n : nat) : string :=
  match n with
  | O => ""
  | S n' =>
      chat_text n' ++ "[12:00:00] user" ++ Str.of_nat n' ++ ": hi"
      ++ Str.newline
  end.

(** The directory of [demo_fs] with every output file locked, and with the
    listing alone locked. *)
Definition locked_fs : file_system :=
  mk_fs (glob_txt demo_fs) (read_text demo_fs)
        (fun _ => Some (OSError "Permission denied")) (fun _ => None).

Definition listing_locked_fs : file_system :=
  mk_fs (glob_txt demo_fs) (read_text demo_fs)
        (fun path =>
           if path =? "chattrans/s/user_message_counts.txt"
           then Some (OSError "Permission denied") else None)
        (fun _ => None).

(** Two streamer directories beside a stray file: the log of [a] has one
    message, the log of [b] is empty. *)
Definition two_streamers_fs : file_system :=
  mk_fs
    (fun dir => [dir ++ "/chat.txt"])
    (fun file_path =>
       if file_path =? "chattrans/a/chat.txt"
       then inr ("[12:00:01] Bob: hello" ++ Str.newline)
       else inr "")
    (fun _ => None)
    (fun _ => None).

(** Whether a file of the list could not be read. *)
Definition some_read_failed (fs : file_system) (file_paths : list string)
  : bool :=
  existsb (fun p => match read_text fs p with inl _ => true | inr _ => false end)
          file_paths.

(** The frame [parse_chat_data] returns for a file. *)
Definition file_frame (fs : file_system) (file_path : string) : DataFrame :=
  match read_text fs file_path with
  | inl _ => Pd.DataFrame_columns
  | inr chat_data => Pd.DataFrame_of (parse_lines (readlines chat_data))
  end.

(** * Properties *)

(** ** Sanity checks of the embedding *)

Example readlines_two :
  readlines ("[1] a: x" ++ Str.newline ++ "junk" ++ Str.newline ++ "[2] b: y")
  = ["[1] a: x" ++ Str.newline; "junk" ++ Str.newline; "[2] b: y"].
Proof. reflexivity. Qed.

Example parse_plain :
  parse_line ("[12:00:01] Bob: hi: there" ++ Str.newline)
  = [mk_entry "12:00:01" "Bob" "hi: there"].
Proof. reflexivity. Qed.

Example count_aaa : Str.count "aaa" "aa" = 1.
Proof. reflexivity. Qed.

Example fmt_4321 : Str.format_thousands 4321 = "4,321".
Proof. reflexivity. Qed.

Example grouped_abc :
  sorted_grouped [("alice", 5); ("bob", 5); ("carol", 3)]
  = [(5, ["alice"; "bob"]); (3, ["carol"])].
Proof. reflexivity. Qed.

Example value_counts_ties :
  Pd.value_counts ["b"; "a"; "c"; "a"; "b"; "d"]
  = [("b", 2); ("a", 2); ("c", 1); ("d", 1)].
Proof. reflexivity. Qed.

(** ** Strings *)

Lemma str_app_assoc (a b c : string) : (a ++ b) ++ c = a ++ b ++ c.
Proof. induction a as [|x a IH]; simpl; [reflexivity | now rewrite IH]. Qed.

(** Right-nested appends with literal characters pushed outwards. *)
Ltac str_norm :=
  repeat first [rewrite str_app_assoc | progress cbn [String.append]].

Lemma str_app_nil_r (a : string) : a ++ "" = a.
Proof. induction a as [|x a IH]; simpl; [reflexivity | now rewrite IH]. Qed.

Lemma strip_prefix_app (p s : string) : Str.strip_prefix p (p ++ s) = Some s.
Proof.
  induction p as [|x p IH]; simpl.
  - now destruct s.
  - now rewrite Ascii.eqb_refl.
Qed.

Lemma strip_prefix_sound (p s r : string) :
  Str.strip_prefix p s = Some r -> s = p ++ r.
Proof.
  revert s; induction p as [|x p IH]; intros s H.
  - destruct s; simpl in H; now inversion H.
  - destruct s as [|y s]; simpl in H; [discriminate|].
    destruct (Ascii.eqb_spec x y) as [->|]; [|discriminate].
    simpl. f_equal. now apply IH.
Qed.

Lemma contains_app_r (sub pre s : string) :
  Str.contains sub s = true -> Str.contains sub (pre ++ s) = true.
Proof.
  intros H. induction pre as [|x pre IH]; simpl; [assumption|].
  change (Str.contains sub (String x (pre ++ s)))
    with (match Str.strip_prefix sub (String x (pre ++ s)) with
          | Some _ => true
          | None => Str.contains sub (pre ++ s)
          end).
  now destruct (Str.strip_prefix sub (String x (pre ++ s))).
Qed.

Lemma contains_tail (sub : string) (x : ascii) (s : string) :
  Str.contains sub (String x s) = false -> Str.contains sub s = false.
Proof.
  change (Str.contains sub (String x s))
    with (match Str.strip_prefix sub (String x s) with
          | Some _ => true
          | None => Str.contains sub s
          end).
  now destruct (Str.strip_prefix sub (String x s)).
Qed.

Lemma contains_head (sub s : string) :
  Str.contains sub s = false -> Str.strip_prefix sub s = None.
Proof.
  destruct s as [|x s].
  - simpl. now destruct (Str.strip_prefix sub "").
  - change (Str.contains sub (String x s))
      with (match Str.strip_prefix sub (String x s) with
            | Some _ => true
            | None => Str.contains sub s
            end).
    now destruct (Str.strip_prefix sub (String x s)).
Qed.

Lemma all_dot_app (a b : string) :
  Re.all_dot (a ++ b) = (Re.all_dot a && Re.all_dot b)%bool.
Proof.
  induction a as [|x a IH]; simpl; [reflexivity|].
  now rewrite IH, andb_assoc.
Qed.

Lemma dot_run_body (body eol : string) :
  Re.all_dot body = true -> Re.dot_run eol = "" ->
  Re.dot_run (body ++ eol) = body.
Proof.
  intros Hb He. induction body as [|x body IH]; simpl in *; [assumption|].
  apply andb_prop in Hb as [Hx Hb]. rewrite Hx. f_equal. now apply IH.
Qed.

Lemma line_end_run (eol : string) : line_end eol -> Re.dot_run eol = "".
Proof. now intros [->| ->]. Qed.

Lemma dot_run_split (s : string) :
  exists rest, s = Re.dot_run s ++ rest
               /\ Re.all_dot (Re.dot_run s) = true /\ Re.dot_run rest = "".
Proof.
  induction s as [|x s (rest & E & Hd & Hr)]; simpl.
  - now exists "".
  - destruct (Re.dot x) eqn:Hx.
    + exists rest. simpl. rewrite Hx, Hd. repeat split; [now f_equal | assumption].
    + exists (String x s). simpl. now rewrite Hx.
Qed.

Lemma greedy_plus_body (body eol : string) :
  body <> "" -> Re.all_dot body = true -> Re.dot_run eol = "" ->
  Re.greedy_plus (body ++ eol) = Some body.
Proof.
  intros Hne Hb He. unfold Re.greedy_plus.
  rewrite dot_run_body by assumption. now destruct body.
Qed.

(** ** The lazy group in front of a two-character delimiter *)

Section TwoCharDelim.

Variables d1 d2 : ascii.
Hypothesis d_distinct : d1 <> d2.

Let delim : string := String d1 (String d2 "").

Lemma strip_delim_cases (X Y r : string) :
  Str.strip_prefix delim (X ++ delim ++ Y) = Some r ->
  (X = "" /\ r = Y) \/ (exists X', X = delim ++ X' /\ r = X' ++ delim ++ Y).
Proof.
  unfold delim. intros H. destruct X as [|a [|b X]].
  - left. split; [reflexivity|].
    simpl in H. rewrite !Ascii.eqb_refl in H. destruct Y; now inversion H.
  - exfalso. simpl in H.
    destruct (Ascii.eqb_spec d1 a); [|discriminate].
    destruct (Ascii.eqb_spec d2 d1); [|discriminate].
    now apply d_distinct.
  - right. exists X. simpl in H.
    destruct (Ascii.eqb_spec d1 a) as [->|]; [|discriminate].
    destruct (Ascii.eqb_spec d2 b) as [->|]; [|discriminate].
    split; [reflexivity|].
    destruct (X ++ delim ++ Y); now inversion H.
Qed.

Lemma strip_delim_free (X Y : string) :
  X <> "" -> Str.contains delim X = false ->
  Str.strip_prefix delim (X ++ delim ++ Y) = None.
Proof.
  intros Hne Hc.
  destruct (Str.strip_prefix delim (X ++ delim ++ Y)) as [r|] eqn:E;
    [|reflexivity].
  apply strip_delim_cases in E as [[-> _]|(X' & -> & _)]; [contradiction|].
  apply contains_head in Hc. now rewrite strip_prefix_app in Hc.
Qed.

Context {A : Type}.
Variable k : string -> string -> option A.

(** The group stops at the first delimiter when what follows accepts. *)
Lemma lazy_first (T rest acc : string) (r : A) :
  T <> "" -> Re.all_dot T = true -> Str.contains delim T = false ->
  k (acc ++ T) rest = Some r ->
  Re.lazy_plus_then delim k acc (T ++ delim ++ rest) = Some r.
Proof.
  revert acc. induction T as [|x T IH]; intros acc Hne Hd Hc Hk;
    [contradiction|].
  simpl in Hd. apply andb_prop in Hd as [Hx Hd].
  cbn [String.append Re.lazy_plus_then]. rewrite Hx.
  destruct T as [|y T].
  - cbn [String.append]. rewrite strip_prefix_app, Hk. reflexivity.
  - rewrite strip_delim_free; [|discriminate|now apply contains_tail in Hc].
    apply IH; [discriminate|assumption|now apply contains_tail in Hc|].
    now rewrite str_app_assoc.
Qed.

End TwoCharDelim.

(** Whatever the lazy group returns comes from a split of the input at a
    delimiter, after a non-empty run of [.] characters. *)
Lemma lazy_sound {A : Type} (delim : string)
    (k : string -> string -> option A) (s acc : string) (r : A) :
  Re.lazy_plus_then delim k acc s = Some r ->
  exists a b, a <> "" /\ Re.all_dot a = true /\ s = a ++ delim ++ b
              /\ k (acc ++ a) b = Some r.
Proof.
  revert acc. induction s as [|x s IH]; intros acc H; [discriminate|].
  cbn [Re.lazy_plus_then] in H.
  destruct (Re.dot x) eqn:Hx; [|discriminate].
  assert (Hrec : Re.lazy_plus_then delim k (acc ++ String x "") s = Some r ->
                 exists a b, a <> "" /\ Re.all_dot a = true
                             /\ String x s = a ++ delim ++ b
                             /\ k (acc ++ a) b = Some r).
  { intros H'. apply IH in H' as (a & b & _ & Ha & -> & Hk).
    exists (String x a), b. repeat split.
    - discriminate.
    - simpl. now rewrite Hx, Ha.
    - rewrite str_app_assoc in Hk. exact Hk. }
  destruct (Str.strip_prefix delim s) as [rest|] eqn:E; [|now apply Hrec].
  destruct (k (acc ++ String x "") rest) as [r'|] eqn:Hk; [|now apply Hrec].
  inversion H; subst r'. apply strip_prefix_sound in E as ->.
  exists (String x ""), rest. repeat split.
  - discriminate.
  - simpl. now rewrite Hx.
  - exact Hk.
Qed.

(** ** The line parser *)

Lemma lazy_step {A : Type} (delim : string) (k : string -> string -> option A)
    (acc : string) (x : ascii) (U rest : string) :
  Re.lazy_plus_then delim k acc (String x U ++ rest)
  = if Re.dot x then
      match Str.strip_prefix delim (U ++ rest) with
      | Some r0 =>
          match k (acc ++ String x "") r0 with
          | Some r => Some r
          | None => Re.lazy_plus_then delim k (acc ++ String x "") (U ++ rest)
          end
      | None => Re.lazy_plus_then delim k (acc ++ String x "") (U ++ rest)
      end
    else None.
Proof. reflexivity. Qed.

Lemma str_app_nil_l (s : string) : "" ++ s = s.
Proof. reflexivity. Qed.

Lemma username_none (ts eol : string) :
  line_end eol ->
  forall U acc, Str.contains ": " U = false ->
  Re.lazy_plus_then ": " (message_group ts) acc (U ++ ": " ++ eol) = None.
Proof.
  intros He. induction U as [|x U IH]; intros acc Hc.
  - destruct He as [->| ->]; reflexivity.
  - rewrite lazy_step.
    destruct (Re.dot x); [|reflexivity].
    pose proof (contains_tail _ _ _ Hc) as Hc'.
    destruct U as [|y U].
    + rewrite str_app_nil_l, strip_prefix_app.
      unfold message_group at 1, Re.greedy_plus.
      rewrite (line_end_run _ He). now apply IH.
    + rewrite strip_delim_free; [now apply IH| | |assumption]; discriminate.
Qed.

Lemma timestamp_tail_none (eol : string) :
  line_end eol ->
  forall V acc, Str.contains ": " V = false ->
  Re.lazy_plus_then "] " username_group acc (V ++ ": " ++ eol) = None.
Proof.
  intros He. induction V as [|x V IH]; intros acc Hc.
  - destruct He as [->| ->]; reflexivity.
  - rewrite lazy_step.
    destruct (Re.dot x); [|reflexivity].
    pose proof (contains_tail _ _ _ Hc) as Hc'.
    destruct (Str.strip_prefix "] " (V ++ ": " ++ eol)) as [rest|] eqn:E;
      [|now apply IH].
    assert (Hu : username_group (acc ++ String x "") rest = None).
    { apply strip_prefix_sound in E.
      destruct V as [|a [|b V]]; simpl in E.
      - discriminate.
      - congruence.
      - injection E as _ _ <-.
        apply (username_none _ eol He V); clear IH.
        now apply contains_tail in Hc'; apply contains_tail in Hc'. }
    rewrite Hu. now apply IH.
Qed.

Lemma timestamp_none (U eol : string) :
  line_end eol -> Str.contains ": " U = false ->
  forall T acc, Str.contains "] " T = false ->
  Re.lazy_plus_then "] " username_group acc (T ++ "] " ++ U ++ ": " ++ eol)
  = None.
Proof.
  intros He HU. induction T as [|x T IH]; intros acc Hc.
  - change ("" ++ "] " ++ U ++ ": " ++ eol) with (("] " ++ U) ++ ": " ++ eol).
    apply timestamp_tail_none; [assumption|].
    cbn. exact HU.
  - rewrite lazy_step.
    destruct (Re.dot x); [|reflexivity].
    pose proof (contains_tail _ _ _ Hc) as Hc'.
    destruct T as [|y T].
    + rewrite str_app_nil_l, strip_prefix_app.
      unfold username_group at 1. rewrite username_none by assumption.
      now apply IH.
    + rewrite strip_delim_free; [now apply IH| | |assumption]; discriminate.
Qed.

Lemma username_finds (ts M eol : string) :
  M <> "" -> Re.all_dot M = true -> line_end eol ->
  forall U acc, U <> "" -> Re.all_dot U = true ->
  exists un pre,
    Re.lazy_plus_then ": " (message_group ts) acc (U ++ ": " ++ M ++ eol)
    = Some (mk_entry ts un (pre ++ M)).
Proof.
  intros HM HdM He. induction U as [|x U IH]; intros acc Hne Hd;
    [contradiction|].
  simpl in Hd. apply andb_prop in Hd as [Hx Hd].
  rewrite lazy_step, Hx.
  destruct U as [|y U].
  - rewrite str_app_nil_l, strip_prefix_app.
    unfold message_group at 1.
    rewrite greedy_plus_body by auto using line_end_run.
    now exists (acc ++ String x ""), "".
  - destruct (Str.strip_prefix ": " (String y U ++ ": " ++ M ++ eol))
      as [rest|] eqn:E.
    + apply strip_delim_cases in E as [[E _]|(X & EX & ->)];
        [discriminate| |discriminate].
      rewrite EX in Hd. change ((": " ++ X)) with (String ":" (String " " X)) in Hd.
      simpl in Hd.
      unfold message_group at 1.
      replace (X ++ ": " ++ M ++ eol) with (((X ++ ": ") ++ M) ++ eol)
        by now rewrite !str_app_assoc.
      rewrite greedy_plus_body.
      * now exists (acc ++ String x ""), (X ++ ": ").
      * destruct X; [|discriminate]. simpl. discriminate.
      * rewrite !all_dot_app, Hd, HdM. reflexivity.
      * now apply line_end_run.
    + apply IH; [discriminate|assumption].
Qed.

Lemma timestamp_finds (U M eol : string) :
  U <> "" -> Re.all_dot U = true ->
  M <> "" -> Re.all_dot M = true -> line_end eol ->
  forall T acc, T <> "" -> Re.all_dot T = true ->
  exists ts un pre,
    Re.lazy_plus_then "] " username_group acc (T ++ "] " ++ U ++ ": " ++ M ++ eol)
    = Some (mk_entry ts un (pre ++ M)).
Proof.
  intros HU HdU HM HdM He. induction T as [|x T IH]; intros acc Hne Hd;
    [contradiction|].
  simpl in Hd. apply andb_prop in Hd as [Hx Hd].
  rewrite lazy_step, Hx.
  destruct T as [|y T].
  - rewrite str_app_nil_l, strip_prefix_app.
    unfold username_group at 1.
    destruct (username_finds (acc ++ String x "") M eol HM HdM He U "" HU HdU)
      as (un & pre & ->).
    now exists (acc ++ String x ""), un, pre.
  - destruct (Str.strip_prefix "] " (String y T ++ "] " ++ U ++ ": " ++ M ++ eol))
      as [rest|] eqn:E.
    + apply strip_delim_cases in E as [[E _]|(X & EX & ->)];
        [discriminate| |discriminate].
      rewrite EX in Hd. change (("] " ++ X)) with (String "]" (String " " X)) in Hd.
      simpl in Hd.
      unfold username_group at 1.
      replace (X ++ "] " ++ U ++ ": " ++ M ++ eol)
        with ((X ++ "] " ++ U) ++ ": " ++ M ++ eol)
        by now rewrite !str_app_assoc.
      destruct (username_finds (acc ++ String x "") M eol HM HdM He
                  (X ++ "] " ++ U) "") as (un & pre & ->).
      * destruct X; discriminate.
      * rewrite !all_dot_app, Hd, HdU. reflexivity.
      * now exists (acc ++ String x ""), un, pre.
    + apply IH; [discriminate|assumption].
Qed.

(** Every string [readlines] returns is a line: characters other than the
    line feed, then at most one line feed. *)
Lemma readlines_from_lines (text cur line : string) :
  Re.all_dot cur = true -> In line (readlines_from cur text) ->
  exists body eol,
    Re.all_dot body = true /\ line_end eol /\ line = body ++ eol.
Proof.
  revert cur. induction text as [|c text IH]; intros cur Hcur Hin.
  - destruct cur as [|x cur]; simpl in Hin; [contradiction|].
    destruct Hin as [<-|[]]. exists (String x cur), "".
    repeat split; [assumption|now left|now rewrite str_app_nil_r].
  - simpl in Hin. destruct (Ascii.eqb_spec c Str.LF) as [->|Hc].
    + destruct Hin as [<-|Hin].
      * exists cur, Str.newline. repeat split; [assumption|now right].
      * now apply (IH "").
    + apply (IH (cur ++ String c "")); [|assumption].
      rewrite all_dot_app, Hcur. simpl. unfold Re.dot.
      apply Ascii.eqb_neq in Hc. now rewrite Hc.
Qed.

Lemma readlines_lines (text line : string) :
  In line (readlines text) ->
  exists body eol,
    Re.all_dot body = true /\ line_end eol /\ line = body ++ eol.
Proof. now apply readlines_from_lines. Qed.

Lemma pattern_match_sound (line : string) (e : entry) :
  pattern_match line = Some e ->
  exists rest,
    timestamp e <> "" /\ username e <> "" /\ message e <> ""
    /\ Re.all_dot (timestamp e) = true /\ Re.all_dot (username e) = true
    /\ Re.all_dot (message e) = true /\ Re.dot_run rest = ""
    /\ line = ("[" ++ timestamp e ++ "] " ++ username e ++ ": " ++ message e)
              ++ rest.
Proof.
  destruct line as [|c s]; [discriminate|]. unfold pattern_match.
  destruct (Ascii.eqb_spec c "[") as [->|Hc].
  - intros H.
    apply lazy_sound in H as (ts & r1 & Hts & Hdts & -> & H).
    apply lazy_sound in H as (un & r2 & Hun & Hdun & -> & H).
    unfold message_group, Re.greedy_plus in H.
    destruct (dot_run_split r2) as (rest & E & Hdm & Hrest).
    destruct (Re.dot_run r2) as [|m0 m] eqn:Em; [discriminate|].
    inversion H; subst e; clear H. cbn [timestamp username message].
    exists rest. repeat split; try assumption; try discriminate.
    rewrite E. str_norm. reflexivity.
  - intros H. exfalso.
    destruct c as [[] [] [] [] [] [] [] []]; try discriminate H.
    now apply Hc.
Qed.

Lemma pattern_match_line (T U M eol : string) :
  pattern_match (("[" ++ T ++ "] " ++ U ++ ": " ++ M) ++ eol)
  = Re.lazy_plus_then "] " username_group "" (T ++ "] " ++ U ++ ": " ++ M ++ eol).
Proof.
  cbn [String.append pattern_match]. f_equal. str_norm. reflexivity.
Qed.

(** C3, amended: a line [[T] U: M] with non-empty [T], [U], [M], no ["] "]
    in [T], no [": "] in [U] and neither gift phrase in [M] yields exactly
    the record (T, U, M), with or without its line terminator; a line whose
    text cannot be written [[T] U: M] with non-empty [T], [U] and [M],
    whatever [T] and [U] contain, yields no record. *)
Theorem parse_line_shape :
  (forall T U M eol : string,
      T <> "" -> U <> "" -> M <> "" ->
      Re.all_dot T = true -> Re.all_dot U = true -> Re.all_dot M = true ->
      Str.contains "] " T = false -> Str.contains ": " U = false ->
      Str.contains gift_sub M = false -> Str.contains is_gifting M = false ->
      line_end eol ->
      parse_line (("[" ++ T ++ "] " ++ U ++ ": " ++ M) ++ eol)
      = [mk_entry T U M])
  /\ (forall body eol : string,
         Re.all_dot body = true -> line_end eol ->
         (forall T U M : string,
             T <> "" -> U <> "" -> M <> "" ->
             body <> "[" ++ T ++ "] " ++ U ++ ": " ++ M) ->
         parse_line (body ++ eol) = []).
Proof.
  split.
  - intros T U M eol HT HU HM HdT HdU HdM HcT HcU Hg1 Hg2 He.
    unfold parse_line.
    assert (Hm : pattern_match (("[" ++ T ++ "] " ++ U ++ ": " ++ M) ++ eol)
                 = Some (mk_entry T U M)).
    { rewrite pattern_match_line.
      apply (lazy_first "]" " ") with (T := T) (rest := U ++ ": " ++ M ++ eol);
        try assumption; [discriminate|].
      unfold username_group.
      apply (lazy_first ":" " ") with (T := U) (rest := M ++ eol);
        try assumption; [discriminate|].
      unfold message_group.
      now rewrite greedy_plus_body by auto using line_end_run. }
    rewrite Hm. cbn [message]. now rewrite Hg1, Hg2.
  - intros body eol Hb He Hshape. unfold parse_line.
    destruct (pattern_match (body ++ eol)) as [e|] eqn:Hm; [|reflexivity].
    exfalso.
    apply pattern_match_sound in Hm
      as (rest & Hts & Hun & Hmsg & Hdts & Hdun & Hdmsg & Hrest & E).
    apply (Hshape (timestamp e) (username e) (message e)); try assumption.
    rewrite <- (dot_run_body body eol Hb (line_end_run _ He)), E.
    apply dot_run_body; [|assumption].
    repeat first [rewrite all_dot_app | progress cbn [String.append Re.all_dot]].
    rewrite Hdts, Hdun, Hdmsg. reflexivity.
Qed.

Lemma parse_line_shape_witness :
  parse_line ("[12:00:01] Bob: hello there" ++ Str.newline)
  = [mk_entry "12:00:01" "Bob" "hello there"]
  /\ parse_line ("joined the channel" ++ Str.newline) = [].
Proof.
  split.
  - apply (proj1 parse_line_shape "12:00:01" "Bob" "hello there" Str.newline);
      try discriminate; try reflexivity.
    now right.
  - apply (proj2 parse_line_shape "joined the channel" Str.newline);
      [reflexivity|now right|].
    intros T U M _ _ _. discriminate.
Defined.

(** The closing bracket may open the timestamp: the lazy group needs one
    character before it looks for ["] "], so this line is parsed although no
    [T] free of ["] "] fits it. *)
Lemma parse_line_shape_counterexample :
  parse_line "[] x] u: m" = [mk_entry "] x" "u" "m"]
  /\ ~ (exists T U M : string,
           T <> "" /\ U <> "" /\ M <> ""
           /\ Str.contains "] " T = false /\ Str.contains ": " U = false
           /\ "[] x] u: m" = "[" ++ T ++ "] " ++ U ++ ": " ++ M).
Proof.
  split; [reflexivity|].
  intros (T & U & M & HT & _ & _ & HcT & _ & E).
  destruct T as [|a [|b T]]; [contradiction| |]; cbn in E.
  - discriminate.
  - injection E as <- <- _. discriminate.
Qed.

(** C4: a line [[T] U: M] whose message [M] contains "gifted a Tier 1 sub
    to" or "is gifting" yields no record, whatever [T] and [U] are. *)
Theorem gift_sub_lines_dropped (T U M eol : string) :
  T <> "" -> U <> "" ->
  Re.all_dot T = true -> Re.all_dot U = true -> Re.all_dot M = true ->
  line_end eol ->
  Str.contains gift_sub M = true \/ Str.contains is_gifting M = true ->
  parse_line (("[" ++ T ++ "] " ++ U ++ ": " ++ M) ++ eol) = [].
Proof.
  intros HT HU HdT HdU HdM He Hg.
  assert (HM : M <> "") by (intros ->; destruct Hg; discriminate).
  destruct (timestamp_finds U M eol HU HdU HM HdM He T "" HT HdT)
    as (ts & un & pre & Hm).
  unfold parse_line.
  replace (pattern_match (("[" ++ T ++ "] " ++ U ++ ": " ++ M) ++ eol))
    with (Some (mk_entry ts un (pre ++ M))).
  - cbn [message].
    destruct Hg as [Hg|Hg]; rewrite (contains_app_r _ pre _ Hg);
      [reflexivity | now rewrite orb_true_r].
  - symmetry. rewrite pattern_match_line. exact Hm.
Qed.

Lemma gift_sub_lines_dropped_witness :
  parse_line ("[12:00:02] Ann: Ann is gifting 5 subs" ++ Str.newline) = []
  /\ parse_line "[12:00:03] Ann: Ann gifted a Tier 1 sub to Bob" = [].
Proof.
  split.
  - apply (gift_sub_lines_dropped "12:00:02" "Ann" "Ann is gifting 5 subs"
             Str.newline); try discriminate; try reflexivity;
      [now right | now right].
  - apply (gift_sub_lines_dropped "12:00:03" "Ann"
             "Ann gifted a Tier 1 sub to Bob" "");
      try discriminate; try reflexivity; now left.
Defined.

(** C10: a line [[T] U: ] with nothing after the colon and space (no ["] "]
    in [T], no [": "] in [U]) yields no record: the message group needs at
    least one character. *)
Theorem empty_message_skipped (T U eol : string) :
  Str.contains "] " T = false -> Str.contains ": " U = false ->
  line_end eol ->
  parse_line (("[" ++ T ++ "] " ++ U ++ ": ") ++ eol) = [].
Proof.
  intros HT HU He. unfold parse_line.
  replace (pattern_match (("[" ++ T ++ "] " ++ U ++ ": ") ++ eol)) with (@None entry);
    [reflexivity|].
  symmetry. etransitivity; [exact (pattern_match_line T U "" eol)|].
  now apply (timestamp_none U eol He HU T "").
Qed.

Lemma empty_message_skipped_witness :
  parse_line ("[12:00:04] Bob: " ++ Str.newline) = [].
Proof.
  apply (empty_message_skipped "12:00:04" "Bob" Str.newline);
    [reflexivity|reflexivity|now right].
Defined.

(** ** The loader *)

Section Loader.

Variable fs : file_system.

Lemma DataFrame_of_frame (chat_entries : list entry) :
  loader_frame (Pd.DataFrame_of chat_entries)
  /\ rows (Pd.DataFrame_of chat_entries) = chat_entries.
Proof. destruct chat_entries; simpl; [split; [now left|reflexivity] | split; [now right|reflexivity]]. Qed.

Lemma parse_chat_data_spec (file_path : string) :
  exists df,
    parse_chat_data fs file_path = (file_log fs file_path, inr df)
    /\ loader_frame df /\ rows df = file_records fs file_path.
Proof.
  unfold parse_chat_data, file_log, file_records.
  destruct (read_text fs file_path) as [e|chat_data]; simpl.
  - exists Pd.DataFrame_columns. repeat split. now right.
  - exists (Pd.DataFrame_of (parse_lines (readlines chat_data))).
    split; [reflexivity|]. apply DataFrame_of_frame.
Qed.

Lemma parse_all_spec (file_paths : list string) :
  exists dfs,
    parse_all fs file_paths = (flat_map (file_log fs) file_paths, inr dfs)
    /\ Forall loader_frame dfs
    /\ flat_map rows dfs = flat_map (file_records fs) file_paths
    /\ List.length dfs = List.length file_paths.
Proof.
  induction file_paths as [|p ps (dfs & E & Hf & Hr & Hl)].
  - exists []. repeat split. constructor.
  - destruct (parse_chat_data_spec p) as (df & Ep & Hdf & Hrows).
    exists (df :: dfs). cbn [parse_all flat_map List.length].
    rewrite Ep, E. cbn. rewrite app_nil_r, Hrows, Hr, Hl.
    repeat split. now constructor.
Qed.

Lemma union_labels_frames (acc : list string) (dfs : list DataFrame) :
  acc = [] \/ acc = entry_columns -> Forall loader_frame dfs ->
  let cols := fold_left Pd.union_labels (map columns dfs) acc in
  (cols = [] /\ acc = [] /\ flat_map rows dfs = []) \/ cols = entry_columns.
Proof.
  intros Hacc Hf. revert acc Hacc.
  induction Hf as [|df dfs Hdf _ IH]; intros acc Hacc; cbn.
  - destruct Hacc as [->| ->]; [now left|now right].
  - destruct Hdf as [[Hc Hr]|Hc]; rewrite Hc.
    + destruct Hacc as [->| ->]; cbn.
      * destruct (IH [] (or_introl eq_refl)) as [(E & _ & Hrows)|E];
          [left|now right].
        rewrite Hr. now repeat split.
      * destruct (IH entry_columns (or_intror eq_refl)) as [(_ & E & _)|E];
          [discriminate|now right].
    + assert (E : Pd.union_labels acc entry_columns = entry_columns)
        by now destruct Hacc as [->| ->].
      rewrite E.
      destruct (IH entry_columns (or_intror eq_refl)) as [(_ & E' & _)|E'];
        [discriminate|now right].
Qed.

Lemma concatenate_dfs_spec (file_paths : list string) :
  file_paths <> [] ->
  exists df,
    concatenate_dfs fs file_paths = (flat_map (file_log fs) file_paths, inr df)
    /\ rows df = flat_map (file_records fs) file_paths
    /\ ((columns df = [] /\ rows df = []) \/ columns df = entry_columns).
Proof.
  intros Hne. destruct (parse_all_spec file_paths) as (dfs & E & Hf & Hr & Hl).
  unfold concatenate_dfs. rewrite E. cbn.
  destruct dfs as [|df dfs].
  - destruct file_paths; [contradiction|discriminate].
  - eexists. rewrite app_nil_r. split; [reflexivity|]. cbn [rows columns].
    split; [exact Hr|].
    destruct (union_labels_frames [] (df :: dfs) (or_introl eq_refl) Hf)
      as [(Ec & _ & Hrows)|Ec]; [left|right]; auto.
Qed.

(** Without any path [pd.concat] has nothing to concatenate and raises. *)
Lemma concatenate_dfs_nil :
  concatenate_dfs fs [] = ([], inl (ValueError "No objects to concatenate")).
Proof. reflexivity. Qed.

End Loader.

(** C8: in a list of file paths, a file whose read or decoding fails adds no
    record and one error message to the log, the other files are still
    parsed, and the rows of the log are the records of the files in the
    order of the list, each file's records in line order. *)
Theorem read_failure_skips_file (fs : file_system) (file_paths : list string) :
  file_paths <> [] ->
  exists chat_df,
    concatenate_dfs fs file_paths
    = (flat_map (file_log fs) file_paths, inr chat_df)
    /\ rows chat_df = flat_map (file_records fs) file_paths
    /\ (forall file_path e,
           read_text fs file_path = inl e ->
           file_records fs file_path = []
           /\ file_log fs file_path
              = [LogError ("Error reading file " ++ file_path ++ ": "
                           ++ exn_str e)])
    /\ (forall file_path chat_data,
           read_text fs file_path = inr chat_data ->
           file_records fs file_path = flat_map parse_line (readlines chat_data)
           /\ file_log fs file_path = []).
Proof.
  intros Hne.
  destruct (concatenate_dfs_spec fs file_paths Hne) as (df & E & Hr & _).
  exists df. repeat split; try assumption;
    unfold file_records, file_log; now rewrite H.
Qed.

Lemma read_failure_skips_file_witness :
  glob_txt demo_fs "chattrans/s" <> []
  /\ exists chat_df,
      concatenate_dfs demo_fs (glob_txt demo_fs "chattrans/s")
      = ([LogError ("Error reading file chattrans/s/2.txt: "
                    ++ "'utf-8' codec can't decode byte 0xff")],
         inr chat_df)
      /\ rows chat_df
         = [mk_entry "12:00:01" "Bob" "hello"; mk_entry "12:00:03" "bob" "again";
            mk_entry "12:05:00" "Ann" "hi Bob"].
Proof.
  split; [discriminate|].
  destruct (read_failure_skips_file demo_fs (glob_txt demo_fs "chattrans/s"))
    as (chat_df & E & Hrows & _); [discriminate|].
  exists chat_df. split; [exact E | exact Hrows].
Defined.

(** ** Counting *)

Lemma sum_cons (p : string * nat) (s : Series nat) :
  Pd.sum (p :: s) = snd p + Pd.sum s.
Proof. reflexivity. Qed.

Lemma sum_bump (u : string) (acc : Series nat) :
  Pd.sum (Pd.bump u acc) = S (Pd.sum acc).
Proof.
  induction acc as [|[v n] acc IH]; [reflexivity|].
  cbn [Pd.bump]. destruct (u =? v); rewrite !sum_cons; cbn [snd];
    [|rewrite IH]; lia.
Qed.

Lemma sum_tally (values : list string) (acc : Series nat) :
  Pd.sum (fold_left (fun a u => Pd.bump u a) values acc)
  = List.length values + Pd.sum acc.
Proof.
  revert acc. induction values as [|u values IH]; intros acc;
    cbn [fold_left List.length]; [reflexivity|].
  rewrite IH, sum_bump. lia.
Qed.

Lemma sum_insert_desc (x : string * nat) (s : Series nat) :
  Pd.sum (Pd.insert_desc snd x s) = snd x + Pd.sum s.
Proof.
  induction s as [|y s IH]; [reflexivity|].
  cbn [Pd.insert_desc]. destruct (snd x <? snd y)%nat; rewrite !sum_cons;
    [rewrite IH|]; lia.
Qed.

Lemma sum_sort_desc (s : Series nat) :
  Pd.sum (Pd.sort_desc snd s) = Pd.sum s.
Proof.
  induction s as [|x s IH]; [reflexivity|].
  cbn [Pd.sort_desc]. now rewrite sum_insert_desc, sum_cons, IH.
Qed.

Lemma sum_value_counts (values : list string) :
  Pd.sum (Pd.value_counts values) = List.length values.
Proof.
  unfold Pd.value_counts, Pd.tally.
  rewrite sum_sort_desc, sum_tally. cbn. lia.
Qed.

(** What the counts hold for a name: the number of usernames equal to it,
    letter for letter. *)
Lemma get_bump (u k : string) (acc : Series nat) :
  Pd.get (Pd.bump u acc) k 0
  = (if k =? u then 1 else 0) + Pd.get acc k 0.
Proof.
  induction acc as [|[v n] acc IH]; cbn [Pd.bump Pd.get].
  - destruct (k =? u); reflexivity.
  - destruct (String.eqb_spec u v) as [->|Huv]; cbn [Pd.get].
    + destruct (k =? v); reflexivity.
    + rewrite IH. destruct (String.eqb_spec k v) as [->|]; [|reflexivity].
      apply not_eq_sym, String.eqb_neq in Huv. now rewrite Huv.
Qed.

Lemma get_tally (values : list string) (k : string) (acc : Series nat) :
  Pd.get (fold_left (fun a u => Pd.bump u a) values acc) k 0
  = count_occ string_dec values k + Pd.get acc k 0.
Proof.
  revert acc. induction values as [|u values IH]; intros acc;
    cbn [fold_left count_occ]; [reflexivity|].
  rewrite IH, get_bump.
  destruct (string_dec u k) as [->|Hne].
  - rewrite String.eqb_refl. lia.
  - apply not_eq_sym, String.eqb_neq in Hne. rewrite Hne. lia.
Qed.

Lemma index_bump (u k : string) (acc : Series nat) :
  In k (Pd.index (Pd.bump u acc)) <-> k = u \/ In k (Pd.index acc).
Proof.
  unfold Pd.index. induction acc as [|[v n] acc IH]; cbn [Pd.bump map fst In].
  - intuition congruence.
  - destruct (String.eqb_spec u v) as [->|]; cbn [map fst In];
      [|rewrite IH]; intuition congruence.
Qed.

Lemma NoDup_bump (u : string) (acc : Series nat) :
  NoDup (Pd.index acc) -> NoDup (Pd.index (Pd.bump u acc)).
Proof.
  induction acc as [|[v n] acc IH]; intros Hnd; cbn [Pd.bump].
  - repeat constructor. intros [].
  - destruct (String.eqb_spec u v) as [->|Hne]; [exact Hnd|].
    inversion Hnd as [|? ? Hv Hnd']; subst.
    change (NoDup (v :: Pd.index (Pd.bump u acc))).
    constructor; [|now apply IH].
    rewrite index_bump. intros [->|Hin]; [now apply Hne | now apply Hv].
Qed.

Lemma NoDup_tally (values : list string) (acc : Series nat) :
  NoDup (Pd.index acc) ->
  NoDup (Pd.index (fold_left (fun a u => Pd.bump u a) values acc)).
Proof.
  revert acc. induction values as [|u values IH]; intros acc Hnd;
    cbn [fold_left]; [assumption|].
  now apply IH, NoDup_bump.
Qed.

Lemma insert_desc_perm {A : Type} (key : A -> nat) (x : A) (l : list A) :
  Permutation (Pd.insert_desc key x l) (x :: l).
Proof.
  induction l as [|y l IH]; cbn [Pd.insert_desc]; [reflexivity|].
  destruct (key x <? key y)%nat; [|reflexivity].
  etransitivity; [apply perm_skip, IH | apply perm_swap].
Qed.

Lemma sort_desc_perm {A : Type} (key : A -> nat) (l : list A) :
  Permutation (Pd.sort_desc key l) l.
Proof.
  induction l as [|x l IH]; cbn [Pd.sort_desc]; [reflexivity|].
  etransitivity; [apply insert_desc_perm | now apply perm_skip].
Qed.

(** With distinct labels the order of a series does not matter to [get]. *)
Lemma get_perm (s s' : Series nat) (k : string) :
  Permutation s s' -> NoDup (Pd.index s) -> Pd.get s k 0 = Pd.get s' k 0.
Proof.
  induction 1 as [|[v n] s s' Hp IH|[v n] [w m] s|s s' s'' Hp IH Hp' IH'];
    intros Hnd.
  - reflexivity.
  - cbn [Pd.get]. inversion Hnd; subst. now rewrite IH.
  - cbn [Pd.get]. destruct (String.eqb_spec k v) as [->|];
      [|reflexivity].
    destruct (String.eqb_spec v w) as [->|]; [|reflexivity].
    exfalso. inversion Hnd as [|? ? Hw _]; subst. apply Hw. now left.
  - rewrite IH by assumption. apply IH'.
    eapply Permutation_NoDup; [|exact Hnd].
    unfold Pd.index. now apply Permutation_map.
Qed.

Lemma value_counts_get (values : list string) (name : string) :
  Pd.get (Pd.value_counts values) name 0 = count_occ string_dec values name.
Proof.
  unfold Pd.value_counts, Pd.tally.
  rewrite (get_perm _ _ name (sort_desc_perm snd _)).
  - rewrite get_tally. cbn [Pd.get]. lia.
  - eapply Permutation_NoDup.
    + unfold Pd.index. apply Permutation_map. symmetry. apply sort_desc_perm.
    + apply NoDup_tally. constructor.
Qed.

(** C1: the counts are keyed by the username as written: "Alice" and "alice"
    get an entry each, and the look-up under the lowercased name sees one of
    the two messages. *)
Theorem analyze_data_keeps_letter_case :
  let chat_df :=
    mk_df entry_columns
      [mk_entry "12:00:01" "Alice" "hi"; mk_entry "12:00:02" "alice" "hi again"] in
  analyze_data chat_df = inr [("Alice", 1); ("alice", 1)]
  /\ Pd.get [("Alice", 1); ("alice", 1)] (Str.lower "Alice") 0 = 1
  /\ List.length
       (filter (fun r => Str.lower (username r) =? Str.lower "Alice")
          (rows chat_df)) = 2.
Proof. repeat split. Qed.

(** C2: for the log the loader builds from any files, the values of the
    per-user counts add up to the number of rows of the log, which are the
    records that the parser kept; [analyze_data] returns them unless the log
    has no row and no column at all. *)
Theorem counts_sum_to_rows (fs : file_system) (file_paths : list string)
    (trace : list event) (chat_df : DataFrame) :
  concatenate_dfs fs file_paths = (trace, inr chat_df) ->
  rows chat_df = flat_map (file_records fs) file_paths
  /\ match analyze_data chat_df with
     | inr counts => Pd.sum counts = List.length (rows chat_df)
     | inl e => e = KeyError "username" /\ rows chat_df = []
     end.
Proof.
  intros H. destruct file_paths as [|p ps]; [discriminate|].
  destruct (concatenate_dfs_spec fs (p :: ps)) as (df & E & Hr & Hc);
    [discriminate|].
  rewrite E in H. inversion H; subst df trace; clear H.
  split; [exact Hr|]. unfold analyze_data, Pd.getitem.
  destruct Hc as [[Hc Hrows]|Hc]; rewrite Hc; cbn.
  - now split.
  - now rewrite sum_value_counts, length_map.
Qed.

Lemma counts_sum_to_rows_witness :
  exists chat_df counts,
    snd (concatenate_dfs demo_fs (glob_txt demo_fs "chattrans/s")) = inr chat_df
    /\ analyze_data chat_df = inr counts
    /\ counts = [("Bob", 1); ("bob", 1); ("Ann", 1)]
    /\ Pd.sum counts = 3
    /\ List.length (rows chat_df) = 3.
Proof.
  pose (r := concatenate_dfs demo_fs (glob_txt demo_fs "chattrans/s")).
  assert (E : r = (fst r, inr (mk_df entry_columns
                       [mk_entry "12:00:01" "Bob" "hello";
                        mk_entry "12:00:03" "bob" "again";
                        mk_entry "12:05:00" "Ann" "hi Bob"])))
    by reflexivity.
  pose proof (counts_sum_to_rows demo_fs _ _ _ E) as [_ H].
  eexists. eexists. split; [exact (f_equal snd E)|].
  split; [reflexivity|]. split; [reflexivity|].
  split; [exact H | reflexivity].
Defined.

(** ** Grouping users by count *)

Lemma insert_key_In (k j : nat) (ks : list nat) :
  In j (Pd.insert_key k ks) <-> j = k \/ In j ks.
Proof.
  induction ks as [|i ks IH]; cbn [Pd.insert_key].
  - cbn. intuition congruence.
  - destruct (Nat.ltb_spec k i); [cbn [In]; intuition congruence|].
    destruct (Nat.eqb_spec k i) as [->|]; cbn [In];
      [intuition congruence|].
    rewrite IH. intuition congruence.
Qed.

Lemma insert_key_sorted (k : nat) (ks : list nat) :
  StronglySorted lt ks -> StronglySorted lt (Pd.insert_key k ks).
Proof.
  induction 1 as [|i ks Hs IH Hall]; cbn [Pd.insert_key].
  - repeat constructor.
  - destruct (Nat.ltb_spec k i) as [Hlt|Hge].
    + constructor; [now constructor|].
      constructor; [assumption|].
      eapply Forall_impl; [|exact Hall]. intros; lia.
    + destruct (Nat.eqb_spec k i) as [->|Hne]; [now constructor|].
      constructor; [assumption|].
      apply Forall_forall. intros j Hj. apply insert_key_In in Hj as [->|Hj].
      * lia.
      * rewrite Forall_forall in Hall. now apply Hall.
Qed.

Lemma group_keys_In (s : Series nat) (k : nat) :
  In k (Pd.group_keys s) <-> exists u, In (u, k) s.
Proof.
  unfold Pd.group_keys. induction s as [|[v n] s IH]; cbn [map fold_right snd In].
  - split; [contradiction|now intros [u []]].
  - rewrite insert_key_In, IH. split.
    + intros [->|[u Hu]]; [exists v; now left | exists u; now right].
    + intros [u [E|Hu]]; [left; congruence | right; now exists u].
Qed.

Lemma group_keys_sorted (s : Series nat) : StronglySorted lt (Pd.group_keys s).
Proof.
  unfold Pd.group_keys. induction s as [|p s IH]; cbn;
    [constructor | now apply insert_key_sorted].
Qed.

(** On keys that already ascend strictly, the descending sort is a reversal. *)
Lemma insert_desc_last {A : Type} (key : A -> nat) (x : A) (l : list A) :
  Forall (fun y => key x < key y) l ->
  Pd.insert_desc key x l = (l ++ [x])%list.
Proof.
  induction 1 as [|y l Hy _ IH]; cbn [Pd.insert_desc app]; [reflexivity|].
  apply Nat.ltb_lt in Hy. now rewrite Hy, IH.
Qed.

Lemma sort_desc_ascending {A : Type} (key : A -> nat) (l : list A) :
  StronglySorted lt (map key l) -> Pd.sort_desc key l = rev l.
Proof.
  induction l as [|x l IH]; cbn; [reflexivity|].
  intros H. inversion H as [|? ? Hs Hall]; subst.
  rewrite IH by assumption. apply insert_desc_last.
  apply Forall_rev. rewrite Forall_map in Hall. exact Hall.
Qed.

Lemma sorted_grouped_rev (s : Series nat) :
  sorted_grouped s = map (group_of s) (rev (Pd.group_keys s)).
Proof.
  unfold sorted_grouped, Pd.groupby_index.
  rewrite sort_desc_ascending.
  - now rewrite map_rev.
  - rewrite map_map. cbn. rewrite map_id. apply group_keys_sorted.
Qed.

Lemma descending_snoc (l : list nat) (x : nat) :
  StronglySorted gt l -> Forall (fun y => y > x) l ->
  StronglySorted gt (l ++ [x]).
Proof.
  induction 1 as [|y l Hs IH Hall]; intros Hx; cbn [app].
  - repeat constructor.
  - inversion Hx; subst. constructor; [now apply IH|].
    apply Forall_app. split; [assumption|]. now repeat constructor.
Qed.

Lemma rev_descending (ks : list nat) :
  StronglySorted lt ks -> StronglySorted gt (rev ks).
Proof.
  induction 1 as [|k ks Hs IH Hall]; cbn [rev]; [constructor|].
  apply descending_snoc; [assumption|]. apply Forall_rev.
  eapply Forall_impl; [|exact Hall]. intros; lia.
Qed.

Lemma ascending_NoDup (ks : list nat) : StronglySorted lt ks -> NoDup ks.
Proof.
  induction 1 as [|k ks Hs IH Hall]; constructor; [|assumption].
  intros Hin. rewrite Forall_forall in Hall. specialize (Hall k Hin). lia.
Qed.

(** Adding one element to the group of a single key, among distinct keys. *)
Lemma flat_map_pick {A : Type} (g : nat -> list A) (x : A) (c : nat)
    (ks : list nat) :
  NoDup ks -> In c ks ->
  Permutation
    (flat_map (fun k => if (c =? k)%nat then x :: g k else g k) ks)
    (x :: flat_map g ks).
Proof.
  induction 1 as [|k ks Hk Hnd IH]; intros Hin; [contradiction|].
  cbn [flat_map]. destruct (Nat.eqb_spec c k) as [->|Hne].
  - cbn [app]. constructor. apply Permutation_app_head.
    assert (E : flat_map (fun j => if (k =? j)%nat then x :: g j else g j) ks
                = flat_map g ks).
    { clear IH Hnd Hin. induction ks as [|j ks IHks]; [reflexivity|].
      cbn [flat_map]. destruct (Nat.eqb_spec k j) as [->|_].
      - exfalso. apply Hk. now left.
      - f_equal. apply IHks. intros H. apply Hk. now right. }
    now rewrite E.
  - destruct Hin as [->|Hin]; [contradiction|].
    etransitivity; [apply Permutation_app_head, IH, Hin|].
    symmetry. apply Permutation_middle.
Qed.

Lemma groups_cover (s : Series nat) (ks : list nat) :
  NoDup ks -> (forall u k, In (u, k) s -> In k ks) ->
  Permutation (flat_map (fun k => snd (group_of s k)) ks) (map fst s).
Proof.
  intros Hnd. induction s as [|[u c] s IH]; intros Hall.
  - cbn. induction ks as [|k ks IHks]; [constructor|].
    inversion Hnd; subst. now apply IHks.
  - cbn [map fst].
    etransitivity;
      [|apply perm_skip, IH; intros v k Hv; apply (Hall v); now right].
    etransitivity;
      [|apply (flat_map_pick (fun k => snd (group_of s k)) u c ks Hnd);
        apply (Hall u); now left].
    apply Permutation_refl'. apply flat_map_ext. intros k.
    unfold group_of. cbn [snd filter]. rewrite (Nat.eqb_sym c k).
    now destruct (k =? c)%nat.
Qed.

(** C9: the groups of [save_user_list_to_file] are keyed by count, in
    strictly descending order of count; the users of a group are those with
    that count, in the order of the counts series; every user is in the
    group of its count, so that the groups together hold each user once; on
    {alice:5, bob:5, carol:3} the groups are [5: alice, bob] and [3: carol]
    and the first is written as "alice and bob: 5 messages each" inside its
    list item. *)
Theorem groups_by_count (message_count : Series nat) :
  let groups := sorted_grouped message_count in
  StronglySorted gt (map fst groups)
  /\ (forall count users,
         In (count, users) groups ->
         users <> []
         /\ users = map fst (filter (fun p => (snd p =? count)%nat)
                               message_count))
  /\ (forall user count,
         In (user, count) message_count ->
         exists users, In (count, users) groups /\ In user users)
  /\ Permutation (flat_map snd groups) (map fst message_count)
  /\ sorted_grouped [("alice", 5); ("bob", 5); ("carol", 3)]
     = [(5, ["alice"; "bob"]); (3, ["carol"])]
  /\ user_list_lines [("alice", 5); ("bob", 5); ("carol", 3)]
     = ["<li>" ++ "alice and bob: 5 messages each" ++ "</li>" ++ Str.newline;
        "<li>" ++ "carol: 3 messages" ++ "</li>" ++ Str.newline].
Proof.
  cbv zeta. rewrite sorted_grouped_rev.
  assert (Hkeys : map fst (map (group_of message_count)
                             (rev (Pd.group_keys message_count)))
                  = rev (Pd.group_keys message_count)).
  { rewrite map_map. cbn. apply map_id. }
  split; [|split; [|split; [|split; [|split]]]].
  - rewrite Hkeys. apply rev_descending, group_keys_sorted.
  - intros count users Hin. apply in_map_iff in Hin as (k & E & Hk).
    inversion E; subst; clear E. split; [|reflexivity].
    apply in_rev, group_keys_In in Hk as [u Hu].
    intros E. apply (in_nil (a := u)). rewrite <- E.
    apply in_map_iff. exists (u, count). split; [reflexivity|].
    apply filter_In. split; [assumption|]. cbn. apply Nat.eqb_refl.
  - intros user count Hin. eexists. split.
    + apply in_map_iff. exists count. split; [reflexivity|].
      apply in_rev. rewrite rev_involutive. apply group_keys_In. now exists user.
    + apply in_map_iff. exists (user, count). split; [reflexivity|].
      apply filter_In. split; [assumption|]. cbn. apply Nat.eqb_refl.
  - rewrite flat_map_concat_map, map_map, <- flat_map_concat_map.
    apply groups_cover.
    + apply NoDup_rev, ascending_NoDup, group_keys_sorted.
    + intros u k Hu. apply in_rev. rewrite rev_involutive.
      apply group_keys_In. now exists u.
  - reflexivity.
  - reflexivity.
Qed.

Lemma groups_by_count_witness :
  (["alice"; "bob"] <> []
   /\ ["alice"; "bob"]
      = map fst (filter (fun p => (snd p =? 5)%nat)
                   [("alice", 5); ("bob", 5); ("carol", 3)]))
  /\ exists users,
      In (3, users) (sorted_grouped [("alice", 5); ("bob", 5); ("carol", 3)])
      /\ In "carol" users.
Proof.
  pose proof (groups_by_count [("alice", 5); ("bob", 5); ("carol", 3)])
    as (_ & Hgroup & Hcover & _).
  split.
  - apply (Hgroup 5 ["alice"; "bob"]). now left.
  - apply (Hcover "carol" 3). now right; right; left.
Defined.

(** ** Counting emotes *)

Lemma strip_prefix_shorter (a : ascii) (sub s rest : string) :
  Str.strip_prefix (String a sub) s = Some rest ->
  String.length rest < String.length s.
Proof.
  intros H. apply strip_prefix_sound in H as ->. cbn.
  induction sub as [|b sub IH]; cbn; lia.
Qed.

Lemma count_from_S (n : nat) (sub s : string) :
  Str.count_from (S n) sub s
  = match Str.strip_prefix sub s with
    | Some rest => S (Str.count_from n sub rest)
    | None =>
        match s with
        | EmptyString => 0
        | String _ s' => Str.count_from n sub s'
        end
    end.
Proof. reflexivity. Qed.

(** The fuel of [Str.count] is enough: more fuel changes nothing. *)
Lemma count_from_enough (a : ascii) (sub : string) (n m : nat) (s : string) :
  String.length s < n -> String.length s < m ->
  Str.count_from n (String a sub) s = Str.count_from m (String a sub) s.
Proof.
  revert m s. induction n as [|n IH]; intros m s Hn Hm; [lia|].
  destruct m as [|m]; [lia|]. rewrite !count_from_S.
  destruct (Str.strip_prefix (String a sub) s) as [rest|] eqn:E.
  - apply strip_prefix_shorter in E. f_equal. apply IH; lia.
  - destruct s as [|c s]; [reflexivity|]. cbn in Hn, Hm. apply IH; lia.
Qed.

(** [str.count] scans from the left and resumes behind each occurrence. *)
Lemma count_unfold (a : ascii) (sub s : string) :
  Str.count s (String a sub)
  = match Str.strip_prefix (String a sub) s with
    | Some rest => S (Str.count rest (String a sub))
    | None =>
        match s with
        | EmptyString => 0
        | String _ s' => Str.count s' (String a sub)
        end
    end.
Proof.
  unfold Str.count. etransitivity; [apply count_from_S|].
  destruct (Str.strip_prefix (String a sub) s) as [rest|] eqn:E.
  - apply strip_prefix_shorter in E. f_equal. apply count_from_enough; lia.
  - destruct s as [|c s]; [reflexivity|]. apply count_from_enough; cbn; lia.
Qed.

Lemma count_absent (s sub : string) :
  Str.contains sub s = false -> Str.count s sub = 0.
Proof.
  destruct sub as [|a sub]; [now destruct s|].
  induction s as [|c s IH]; intros H; rewrite count_unfold;
    rewrite (contains_head _ _ H); [reflexivity|].
  apply IH. now apply contains_tail in H.
Qed.

Section EmoteUsage.

Variable chat_df : DataFrame.

Hypothesis has_message : Pd.has_label "message" (columns chat_df) = true.

Lemma count_emote_usage_fold (emotes : list string) :
  count_emote_usage chat_df emotes = inr (fold_left (emote_step chat_df) emotes []).
Proof.
  unfold count_emote_usage.
  generalize (@nil (string * nat)) as d.
  induction emotes as [|e emotes IH]; intros d; cbn [fold_left];
    [reflexivity|].
  unfold Pd.getitem at 2. rewrite has_message. cbn [Pd.field String.eqb].
  apply IH.
Qed.

Lemma dict_set_get (k k' : string) (v : nat) (d : Series nat) :
  Pd.get (Pd.dict_set k v d) k' 0
  = if k' =? k then v else Pd.get d k' 0.
Proof.
  induction d as [|[j w] d IH]; cbn [Pd.dict_set Pd.get]; [reflexivity|].
  destruct (String.eqb_spec k j) as [->|Hkj]; cbn [Pd.get].
  - now destruct (k' =? j).
  - rewrite IH. destruct (String.eqb_spec k' j) as [->|]; [|reflexivity].
    apply String.eqb_neq in Hkj. rewrite String.eqb_sym in Hkj.
    now rewrite Hkj.
Qed.

Lemma dict_set_new (k : string) (v : nat) (d : Series nat) :
  In (k, v) (Pd.dict_set k v d).
Proof.
  induction d as [|[j w] d IH]; cbn [Pd.dict_set]; [now left|].
  destruct (String.eqb_spec k j) as [->|]; [now left|now right].
Qed.

Lemma emote_step_keeps (e a : string) (d : Series nat) :
  In (e, emote_total chat_df e) d -> In (e, emote_total chat_df e) (emote_step chat_df d a).
Proof.
  unfold emote_step. induction d as [|[j w] d IH]; intros Hin;
    [contradiction|].
  cbn [Pd.dict_set]. destruct (String.eqb_spec a j) as [->|].
  - destruct Hin as [E|Hin]; [left; congruence|now right].
  - destruct Hin as [E|Hin]; [now left|right; now apply IH].
Qed.

Lemma emote_fold_keeps (e : string) (emotes : list string) (d : Series nat) :
  In (e, emote_total chat_df e) d ->
  In (e, emote_total chat_df e) (fold_left (emote_step chat_df) emotes d)
  /\ (Pd.get d e 0 = emote_total chat_df e ->
      Pd.get (fold_left (emote_step chat_df) emotes d) e 0 = emote_total chat_df e).
Proof.
  revert d. induction emotes as [|a emotes IH]; intros d Hin;
    cbn [fold_left]; [now split|].
  destruct (IH (emote_step chat_df d a) (emote_step_keeps e a d Hin)) as [H1 H2].
  split; [assumption|]. intros Hget. apply H2.
  unfold emote_step. rewrite dict_set_get.
  now destruct (String.eqb_spec e a) as [->|].
Qed.

Lemma emote_fold_sets (e : string) (emotes : list string) (d : Series nat) :
  In e emotes ->
  In (e, emote_total chat_df e) (fold_left (emote_step chat_df) emotes d)
  /\ Pd.get (fold_left (emote_step chat_df) emotes d) e 0 = emote_total chat_df e.
Proof.
  revert d. induction emotes as [|a emotes IH]; intros d Hin;
    [contradiction|].
  cbn [fold_left].
  destruct (in_dec string_dec e emotes) as [Hlater|_]; [now apply IH|].
  destruct Hin as [->|Hin]; [|now apply IH].
  destruct (emote_fold_keeps e emotes (emote_step chat_df d e)) as [H1 H2].
  - apply dict_set_new.
  - split; [assumption|]. apply H2. unfold emote_step.
    now rewrite dict_set_get, String.eqb_refl.
Qed.

Lemma emote_total_absent (emote : string) :
  (forall r, In r (rows chat_df) -> Str.contains emote (message r) = false) ->
  emote_total chat_df emote = 0.
Proof.
  unfold emote_total. induction (rows chat_df) as [|r rs IH]; intros H;
    [reflexivity|].
  cbn [map list_sum fold_right].
  change (fold_right Nat.add 0 ?l) with (list_sum l).
  rewrite IH by (intros; apply H; now right).
  rewrite count_absent; [reflexivity|]. apply H. now left.
Qed.

End EmoteUsage.

(** C5: for a log with its message column, [count_emote_usage] gives every
    token of the list the sum over the messages of [str.count], the number
    of occurrences found by a scan that resumes behind each occurrence, so
    that overlapping occurrences count once ("aa" once in "aaa", "abc" twice
    in "abc abc"); a token found in no message is in the output with 0. *)
Theorem count_emote_usage_sums (chat_df : DataFrame) (emotes : list string) :
  Pd.has_label "message" (columns chat_df) = true ->
  exists usage,
    count_emote_usage chat_df emotes = inr usage
    /\ (forall emote,
           In emote emotes ->
           In (emote, emote_total chat_df emote) usage
           /\ Pd.get usage emote 0
              = list_sum (map (fun r => Str.count (message r) emote)
                            (rows chat_df)))
    /\ (forall emote,
           In emote emotes ->
           (forall r, In r (rows chat_df) ->
                      Str.contains emote (message r) = false) ->
           In (emote, 0) usage)
    /\ Str.count "aaa" "aa" = 1
    /\ Str.count "abc abc" "abc" = 2.
Proof.
  intros Hmsg. exists (fold_left (emote_step chat_df) emotes []).
  split; [now apply count_emote_usage_fold|].
  split; [|split; [|split; reflexivity]].
  - intros emote Hin.
    destruct (emote_fold_sets chat_df emote emotes [] Hin) as [H1 H2].
    split; [assumption|]. rewrite H2. unfold emote_total. now rewrite map_map.
  - intros emote Hin Habs.
    destruct (emote_fold_sets chat_df emote emotes [] Hin) as [H1 _].
    now rewrite emote_total_absent in H1.
Qed.

Lemma count_emote_usage_sums_witness :
  Pd.has_label "message" (columns demo_log) = true
  /\ exists usage,
      count_emote_usage demo_log ["aa"; "abc"; "zzz"] = inr usage
      /\ Pd.get usage "aa" 0 = 1
      /\ Pd.get usage "abc" 0 = 2
      /\ In ("zzz", 0) usage.
Proof.
  split; [reflexivity|].
  destruct (count_emote_usage_sums demo_log ["aa"; "abc"; "zzz"] eq_refl)
    as (usage & E & Hsum & Hzero & _).
  exists usage. split; [exact E|].
  split; [exact (proj2 (Hsum "aa" (or_introl eq_refl)))|].
  split; [exact (proj2 (Hsum "abc" (or_intror (or_introl eq_refl))))|].
  apply Hzero; [now right; right; left|].
  intros r [<-|[<-|[]]]; reflexivity.
Defined.

(** Counting every position would give 2 for "aa" in "aaa"; the code
    gives 1. *)
Lemma count_emote_usage_overlap_counterexample :
  let chat_df := mk_df entry_columns [mk_entry "12:00:01" "Bob" "aaa"] in
  list_sum (map (fun r => occurrences "aa" (message r)) (rows chat_df)) = 2
  /\ count_emote_usage chat_df ["aa"] = inr [("aa", 1)]
  /\ count_emote_usage chat_df ["aa"]
     <> inr [("aa", list_sum (map (fun r => occurrences "aa" (message r))
                                (rows chat_df)))].
Proof.
  cbv zeta. split; [reflexivity|]. split; [reflexivity|]. discriminate.
Qed.

(** ** Whole runs *)

(** A directory without any [.txt] file: a warning, and nothing written. *)
Lemma process_streamer_data_no_files (fs : file_system)
    (modify_html_files : string -> M unit) (streamer_path : string) :
  glob_txt fs streamer_path = [] ->
  makedirs fs streamer_path = None ->
  makedirs fs (path_join streamer_path "html") = None ->
  process_streamer_data fs modify_html_files streamer_path
  = ([LogInfo ("Processing data for streamer: " ++ streamer_path);
      MakeDirs streamer_path;
      MakeDirs (path_join streamer_path "html");
      LogWarning ("No chat files found in " ++ streamer_path)],
     inr tt).
Proof.
  intros Hglob Hdir Hhtml. unfold process_streamer_data, os_makedirs.
  rewrite Hglob, Hdir, Hhtml. reflexivity.
Qed.

(** Whenever the files of a directory yield no record at all, the run
    raises: on the missing column when every file was read, in [max] when
    some read failed. *)
Lemma process_streamer_data_empty_log (fs : file_system)
    (modify_html_files : string -> M unit) (streamer_path : string) :
  glob_txt fs streamer_path <> [] ->
  makedirs fs streamer_path = None ->
  makedirs fs (path_join streamer_path "html") = None ->
  flat_map (file_records fs) (glob_txt fs streamer_path) = [] ->
  exists trace e,
    process_streamer_data fs modify_html_files streamer_path = (trace, inl e)
    /\ (e = KeyError "timestamp"
        \/ e = ValueError "max() arg is an empty sequence").
Proof.
  intros Hglob Hdir Hhtml Hempty.
  unfold process_streamer_data, os_makedirs. rewrite Hdir, Hhtml.
  destruct (concatenate_dfs_spec fs _ Hglob) as (df & E & Hr & Hc).
  destruct (glob_txt fs streamer_path) as [|p ps]; [contradiction|].
  rewrite E. rewrite Hempty in Hr.
  destruct df as [cols rws]. cbn [rows columns] in Hr, Hc. subst rws.
  destruct Hc as [[-> _]| ->]; cbn; eauto.
Qed.

(** C6: a run over a directory whose only log holds no line that parses
    stops with [KeyError: 'timestamp'], and a run over a directory whose only
    log cannot be read stops with the [ValueError] of [max] on an empty
    sequence; in both nothing is written. *)
Theorem process_streamer_data_raises_on_empty_log
    (modify_html_files : string -> M unit) :
  process_streamer_data (single_file_fs (inr "")) modify_html_files
    "chattrans/s"
  = ([LogInfo "Processing data for streamer: chattrans/s";
      MakeDirs "chattrans/s"; MakeDirs "chattrans/s/html"],
     inl (KeyError "timestamp"))
  /\ process_streamer_data
       (single_file_fs (inr ("-- stream offline --" ++ Str.newline)))
       modify_html_files "chattrans/s"
     = ([LogInfo "Processing data for streamer: chattrans/s";
         MakeDirs "chattrans/s"; MakeDirs "chattrans/s/html"],
        inl (KeyError "timestamp"))
  /\ process_streamer_data
       (single_file_fs (inl (OSError "Permission denied")))
       modify_html_files "chattrans/s"
     = ([LogInfo "Processing data for streamer: chattrans/s";
         MakeDirs "chattrans/s"; MakeDirs "chattrans/s/html";
         LogError "Error reading file chattrans/s/chat.txt: Permission denied"],
        inl (ValueError "max() arg is an empty sequence")).
Proof. repeat split. Qed.

(** C7: on a log of 51 messages by 51 users the title of the chart announces
    "Total Messages: 50", the sum over the 50 users charted, while the same
    run writes "Total Messages Sent: 51" to the listing. *)
Theorem chart_title_sums_top_users_only
    (modify_html_files : string -> M unit) :
  let fs := single_file_fs (inr (chat_text 51)) in
  let run := process_streamer_data fs modify_html_files "chattrans/s" in
  List.length (file_records fs "chattrans/s/chat.txt") = 51
  /\ (exists c,
         In (WriteChart "chattrans/s/top_users.html" c) (fst run)
         /\ chart_title c = "Top Users by Message Count (Total Messages: 50)")
  /\ In (AppendText "chattrans/s/user_message_counts.txt"
           [Str.newline ++ "Total Messages Sent: 51" ++ Str.newline;
            "Total Participants: 51" ++ Str.newline])
        (fst run).
Proof.
  cbv zeta. split; [reflexivity|].
  cbv. destruct (modify_html_files _) as [t r].
  split.
  - eexists. split; [do 3 right; left; reflexivity | reflexivity].
  - do 5 right. left. reflexivity.
Qed.

(** * Further properties of the code *)

(** ** What the parser returns *)

Lemma contains_split (sub s : string) :
  Str.contains sub s = true -> exists a b, s = a ++ sub ++ b.
Proof.
  induction s as [|x s IH].
  - cbn. destruct (Str.strip_prefix sub "") as [r|] eqn:E; [|discriminate].
    intros _. apply strip_prefix_sound in E. now exists "", r.
  - change (Str.contains sub (String x s))
      with (match Str.strip_prefix sub (String x s) with
            | Some _ => true
            | None => Str.contains sub s
            end).
    destruct (Str.strip_prefix sub (String x s)) as [r|] eqn:E.
    + intros _. apply strip_prefix_sound in E. now exists "", r.
    + intros H. destruct (IH H) as (a & b & ->). now exists (String x a), b.
Qed.

(** The lazy group succeeds as soon as one split makes what follows
    succeed. *)
Lemma lazy_complete {A : Type} (delim : string)
    (k : string -> string -> option A) (a b acc : string) :
  a <> "" -> Re.all_dot a = true ->
  (forall acc', k acc' b <> None) ->
  Re.lazy_plus_then delim k acc (a ++ delim ++ b) <> None.
Proof.
  intros Hne Hd Hk. revert acc. induction a as [|x a IH]; intros acc;
    [contradiction|].
  cbn [Re.all_dot] in Hd. apply andb_prop in Hd as [Hx Hd].
  rewrite lazy_step, Hx.
  destruct a as [|y a].
  - rewrite str_app_nil_l, strip_prefix_app.
    destruct (k (acc ++ String x "") b) eqn:E; [discriminate|].
    now apply Hk in E.
  - destruct (Str.strip_prefix delim (String y a ++ delim ++ b)) as [r0|];
      [destruct (k (acc ++ String x "") r0); [discriminate|] |];
      apply IH; (discriminate || assumption).
Qed.

(** The split the lazy group settles on is the shortest: for every shorter
    split at the delimiter, what follows has failed. *)
Lemma lazy_minimal {A : Type} (delim : string)
    (k : string -> string -> option A) (s acc : string) (r : A) :
  Re.lazy_plus_then delim k acc s = Some r ->
  exists a b,
    a <> "" /\ Re.all_dot a = true /\ s = a ++ delim ++ b
    /\ k (acc ++ a) b = Some r
    /\ forall a' b',
        a' <> "" -> s = a' ++ delim ++ b' ->
        String.length a' < String.length a -> k (acc ++ a') b' = None.
Proof.
  revert acc. induction s as [|x s IH]; intros acc H; [discriminate|].
  cbn [Re.lazy_plus_then] in H.
  destruct (Re.dot x) eqn:Hx; [|discriminate].
  assert (Hrec :
    (forall b', s = delim ++ b' -> k (acc ++ String x "") b' = None) ->
    Re.lazy_plus_then delim k (acc ++ String x "") s = Some r ->
    exists a b,
      a <> "" /\ Re.all_dot a = true /\ String x s = a ++ delim ++ b
      /\ k (acc ++ a) b = Some r
      /\ forall a' b',
          a' <> "" -> String x s = a' ++ delim ++ b' ->
          String.length a' < String.length a -> k (acc ++ a') b' = None).
  { intros Hfirst H'.
    apply IH in H' as (a & b & Hne & Ha & -> & Hk & Hmin).
    exists (String x a), b. repeat split.
    - discriminate.
    - cbn. now rewrite Hx, Ha.
    - now rewrite str_app_assoc in Hk.
    - intros a' b' Hne' E Hlen. destruct a' as [|y a']; [contradiction|].
      cbn [String.append] in E. injection E as <- E.
      destruct a' as [|z a'].
      + apply Hfirst. exact E.
      + cbn [String.length] in Hlen.
        specialize (Hmin (String z a') b').
        rewrite str_app_assoc in Hmin. apply Hmin;
          [discriminate | exact E | cbn [String.length]; lia]. }
  destruct (Str.strip_prefix delim s) as [rest|] eqn:E.
  - destruct (k (acc ++ String x "") rest) as [r'|] eqn:Hk.
    + inversion H; subst r'. apply strip_prefix_sound in E as ->.
      exists (String x ""), rest. repeat split.
      * discriminate.
      * cbn. now rewrite Hx.
      * exact Hk.
      * intros a' b' Hne' _ Hlen. destruct a'; [contradiction|].
        cbn in Hlen. lia.
    + apply Hrec; [|assumption].
      intros b' Eb. subst s. rewrite strip_prefix_app in E.
      now inversion E; subst.
  - apply Hrec; [|assumption].
    intros b' Eb. subst s. rewrite strip_prefix_app in E. discriminate.
Qed.

Lemma parse_line_inv (line : string) (e : entry) :
  In e (parse_line line) ->
  pattern_match line = Some e
  /\ Str.contains gift_sub (message e) = false
  /\ Str.contains is_gifting (message e) = false.
Proof.
  unfold parse_line. destruct (pattern_match line) as [e'|]; [|contradiction].
  destruct (Str.contains gift_sub (message e')) eqn:G1;
    destruct (Str.contains is_gifting (message e')) eqn:G2;
    cbn; try contradiction.
  intros [<-|[]]. auto.
Qed.

(** X1: every record the line parser returns is the only one for its line,
    has a non-empty timestamp, username and message without line feed, a
    message free of both gift phrases, and spells out the line: the line is
    [[timestamp] username: message] followed by nothing or by a line feed
    and whatever comes after it. *)
Theorem parsed_record_spells_line (line : string) (e : entry) :
  In e (parse_line line) ->
  parse_line line = [e]
  /\ timestamp e <> "" /\ username e <> "" /\ message e <> ""
  /\ Re.all_dot (timestamp e) = true /\ Re.all_dot (username e) = true
  /\ Re.all_dot (message e) = true
  /\ Str.contains gift_sub (message e) = false
  /\ Str.contains is_gifting (message e) = false
  /\ exists rest,
      Re.dot_run rest = ""
      /\ line = ("[" ++ timestamp e ++ "] " ++ username e ++ ": " ++ message e)
                ++ rest.
Proof.
  intros Hin. destruct (parse_line_inv line e Hin) as (Hm & G1 & G2).
  destruct (pattern_match_sound line e Hm)
    as (rest & H1 & H2 & H3 & H4 & H5 & H6 & Hrest & E).
  split.
  - unfold parse_line. now rewrite Hm, G1, G2.
  - repeat (split; [assumption|]). now exists rest.
Qed.

Lemma parsed_record_spells_line_witness :
  parse_line ("[12:00:01] Bob: hi: there" ++ Str.newline)
  = [mk_entry "12:00:01" "Bob" "hi: there"]
  /\ exists rest,
      Re.dot_run rest = ""
      /\ "[12:00:01] Bob: hi: there" ++ Str.newline
         = ("[" ++ "12:00:01" ++ "] " ++ "Bob" ++ ": " ++ "hi: there") ++ rest.
Proof.
  destruct (parsed_record_spells_line
              ("[12:00:01] Bob: hi: there" ++ Str.newline)
              (mk_entry "12:00:01" "Bob" "hi: there"))
    as (H & _ & _ & _ & _ & _ & _ & _ & _ & Hrest).
  - now left.
  - split; [exact H | exact Hrest].
Defined.

Lemma str_length_app (a b : string) :
  String.length (a ++ b) = String.length a + String.length b.
Proof. induction a as [|x a IH]; cbn; [reflexivity | now rewrite IH]. Qed.

Lemma message_group_total (ts un rest : string) (e : entry) :
  message_group ts un rest = Some e ->
  forall ts' un', message_group ts' un' rest <> None.
Proof.
  unfold message_group. destruct (Re.greedy_plus rest); discriminate.
Qed.

Lemma dot_run_head (q rest : string) (c : ascii) :
  Re.all_dot q = true -> Re.dot c = true ->
  Re.dot_run (q ++ String c rest) <> "".
Proof.
  intros Hq Hc. destruct q as [|z q]; cbn.
  - now rewrite Hc.
  - cbn in Hq. apply andb_prop in Hq as [Hz _]. now rewrite Hz.
Qed.

(** X2: the parser splits at the first delimiters: past its first
    character the timestamp of a record holds no ["] "], and past its first
    character the username holds no [": "]. *)
Theorem parsed_record_first_delimiters (line : string) (e : entry) :
  In e (parse_line line) ->
  (forall c t, timestamp e = String c t -> Str.contains "] " t = false)
  /\ (forall c u, username e = String c u -> Str.contains ": " u = false).
Proof.
  intros Hin. destruct (parse_line_inv line e Hin) as (Hm & _ & _).
  destruct line as [|b0 s]; [discriminate|]. unfold pattern_match in Hm.
  assert (Hs : Re.lazy_plus_then "] " username_group "" s = Some e).
  { destruct b0 as [[] [] [] [] [] [] [] []]; try discriminate Hm.
    exact Hm. }
  clear Hm.
  apply lazy_minimal in Hs as (ts & b & Hts & Hdts & -> & Hu & Hmin_ts).
  cbn [String.append] in Hu, Hmin_ts.
  unfold username_group in Hu.
  apply lazy_minimal in Hu as (un & b2 & Hun & Hdun & -> & Hmsg & Hmin_un).
  cbn [String.append] in Hmsg, Hmin_un.
  assert (He : timestamp e = ts /\ username e = un).
  { unfold message_group in Hmsg. destruct (Re.greedy_plus b2);
      [|discriminate]. now inversion Hmsg. }
  destruct He as [-> ->]. split.
  - intros c t -> . destruct (Str.contains "] " t) eqn:Hc; [|reflexivity].
    exfalso. apply contains_split in Hc as (p & q & ->).
    assert (Hd : Re.all_dot q = true).
    { cbn [Re.all_dot] in Hdts. rewrite !all_dot_app in Hdts.
      apply andb_prop in Hdts as [_ Hdts].
      apply andb_prop in Hdts as [_ Hdts].
      now apply andb_prop in Hdts as [_ Hdts]. }
    specialize (Hmin_ts (String c p) (q ++ "] " ++ un ++ ": " ++ b2)).
    cbn [String.append] in Hmin_ts.
    assert (HN : username_group (String c p) (q ++ "] " ++ un ++ ": " ++ b2)
                 = None).
    { apply Hmin_ts; [discriminate| |].
      - f_equal. str_norm. reflexivity.
      - cbn [String.length]. rewrite !str_length_app. cbn. lia. }
    revert HN. unfold username_group.
    replace (q ++ "] " ++ un ++ ": " ++ b2)
      with ((q ++ "] " ++ un) ++ ": " ++ b2) by (str_norm; reflexivity).
    apply lazy_complete.
    + destruct q; discriminate.
    + repeat first [rewrite all_dot_app | progress cbn [String.append Re.all_dot]].
      rewrite Hd, Hdun. reflexivity.
    + intros acc'. eapply message_group_total. exact Hmsg.
  - intros c u ->. destruct (Str.contains ": " u) eqn:Hc; [|reflexivity].
    exfalso. apply contains_split in Hc as (p & q & ->).
    assert (Hd : Re.all_dot q = true).
    { cbn [Re.all_dot] in Hdun. rewrite !all_dot_app in Hdun.
      apply andb_prop in Hdun as [_ Hdun].
      apply andb_prop in Hdun as [_ Hdun].
      now apply andb_prop in Hdun as [_ Hdun]. }
    specialize (Hmin_un (String c p) (q ++ ": " ++ b2)).
    cbn [String.append] in Hmin_un.
    assert (HN : message_group ts (String c p) (q ++ ": " ++ b2) = None).
    { apply Hmin_un; [discriminate| |].
      - f_equal. str_norm. reflexivity.
      - cbn [String.length]. rewrite !str_length_app. cbn. lia. }
    unfold message_group, Re.greedy_plus in HN.
    pose proof (dot_run_head q (String " " b2) ":" Hd eq_refl) as Hrun.
    cbn [String.append] in HN.
    destruct (Re.dot_run (q ++ String ":" (String " " b2)));
      [now apply Hrun | discriminate].
Qed.

Lemma parsed_record_first_delimiters_witness :
  In (mk_entry "] x" "u" "m: n") (parse_line "[] x] u: m: n")
  /\ Str.contains "] " " x" = false /\ Str.contains ": " "" = false.
Proof.
  destruct (parsed_record_first_delimiters "[] x] u: m: n"
              (mk_entry "] x" "u" "m: n")) as [Hts Hun]; [now left|].
  split; [now left|].
  split; [exact (Hts "]"%char " x" eq_refl) | exact (Hun "u"%char "" eq_refl)].
Defined.

(** ** What the counts hold *)

Lemma index_tally (values : list string) (acc : Series nat) (k : string) :
  In k (Pd.index (fold_left (fun a u => Pd.bump u a) values acc))
  <-> In k values \/ In k (Pd.index acc).
Proof.
  revert acc. induction values as [|u values IH]; intros acc;
    cbn [fold_left In].
  - intuition.
  - rewrite IH, index_bump. intuition congruence.
Qed.

Lemma index_value_counts (values : list string) (k : string) :
  In k (Pd.index (Pd.value_counts values)) <-> In k values.
Proof.
  unfold Pd.value_counts, Pd.tally, Pd.index. split.
  - intros H.
    apply (Permutation_in _ (Permutation_map fst (sort_desc_perm snd _))) in H.
    apply index_tally in H as [H|[]]. exact H.
  - intros H.
    apply (Permutation_in _
             (Permutation_sym (Permutation_map fst (sort_desc_perm snd _)))).
    apply index_tally. now left.
Qed.

Lemma NoDup_value_counts (values : list string) :
  NoDup (Pd.index (Pd.value_counts values)).
Proof.
  unfold Pd.value_counts, Pd.tally.
  eapply Permutation_NoDup.
  - unfold Pd.index. apply Permutation_map. symmetry. apply sort_desc_perm.
  - apply NoDup_tally. constructor.
Qed.

Lemma get_In (s : Series nat) (k : string) (v : nat) :
  NoDup (Pd.index s) -> In (k, v) s -> Pd.get s k 0 = v.
Proof.
  induction s as [|[j w] s IH]; intros Hnd Hin; [contradiction|].
  cbn [Pd.get]. inversion Hnd as [|? ? Hj Hnd']; subst.
  destruct Hin as [E|Hin].
  - inversion E; subst. now rewrite String.eqb_refl.
  - destruct (String.eqb_spec k j) as [->|]; [|now apply IH].
    exfalso. apply Hj. unfold Pd.index. apply in_map_iff.
    now exists (j, v).
Qed.

(** The descending sort puts a new element behind the larger ones only. *)
Lemma insert_desc_sorted {A : Type} (key : A -> nat) (x : A) (l : list A) :
  StronglySorted (fun a b => key b <= key a) l ->
  StronglySorted (fun a b => key b <= key a) (Pd.insert_desc key x l).
Proof.
  induction 1 as [|y l Hs IH Hall]; cbn [Pd.insert_desc].
  - repeat constructor.
  - destruct (Nat.ltb_spec (key x) (key y)) as [Hlt|Hge].
    + constructor; [assumption|].
      apply (Permutation_Forall (Permutation_sym (insert_desc_perm key x l))).
      constructor; [lia | assumption].
    + constructor; [now constructor|].
      constructor; [assumption|].
      eapply Forall_impl; [|exact Hall]. cbn. intros; lia.
Qed.

Lemma sort_desc_sorted {A : Type} (key : A -> nat) (l : list A) :
  StronglySorted (fun a b => key b <= key a) (Pd.sort_desc key l).
Proof.
  induction l as [|x l IH]; cbn [Pd.sort_desc];
    [constructor | now apply insert_desc_sorted].
Qed.

Lemma insert_desc_filter {A : Type} (key : A -> nat) (c : nat) (x : A)
    (l : list A) :
  filter (fun y => (key y =? c)%nat) (Pd.insert_desc key x l)
  = filter (fun y => (key y =? c)%nat) (x :: l).
Proof.
  induction l as [|y l IH]; cbn [Pd.insert_desc]; [reflexivity|].
  destruct (Nat.ltb_spec (key x) (key y)) as [Hlt|]; [|reflexivity].
  cbn [filter] in *. rewrite IH.
  destruct (Nat.eqb_spec (key x) c) as [Hx|]; [|reflexivity].
  destruct (Nat.eqb_spec (key y) c) as [Hy|]; [lia|reflexivity].
Qed.

(** Elements of equal key keep their order through the descending sort. *)
Lemma sort_desc_stable {A : Type} (key : A -> nat) (c : nat) (l : list A) :
  filter (fun y => (key y =? c)%nat) (Pd.sort_desc key l)
  = filter (fun y => (key y =? c)%nat) l.
Proof.
  induction l as [|x l IH]; cbn [Pd.sort_desc]; [reflexivity|].
  rewrite insert_desc_filter. cbn [filter]. now rewrite IH.
Qed.

(** X3: on a frame with a username column, [analyze_data] returns a series
    in which every username of the log appears exactly once as a label, no
    other label appears, the value under a label is the number of rows whose
    username equals it letter for letter (so at least 1), and the values
    never increase along the series; without the column it raises
    [KeyError]. *)
Theorem analyze_data_counts (chat_df : DataFrame) :
  (Pd.has_label "username" (columns chat_df) = true ->
   exists counts,
     analyze_data chat_df = inr counts
     /\ NoDup (Pd.index counts)
     /\ (forall name,
            In name (Pd.index counts)
            <-> In name (map username (rows chat_df)))
     /\ (forall name,
            Pd.get counts name 0
            = count_occ string_dec (map username (rows chat_df)) name)
     /\ (forall name n,
            In (name, n) counts ->
            n = count_occ string_dec (map username (rows chat_df)) name
            /\ 1 <= n)
     /\ StronglySorted (fun a b => snd b <= snd a) counts)
  /\ (Pd.has_label "username" (columns chat_df) = false ->
      analyze_data chat_df = inl (KeyError "username")).
Proof.
  unfold analyze_data, Pd.getitem. split; intros H; rewrite H;
    [|reflexivity].
  cbn [Pd.field String.eqb Ascii.eqb Bool.eqb].
  eexists. split; [reflexivity|].
  split; [apply NoDup_value_counts|].
  split; [apply index_value_counts|].
  split; [apply value_counts_get|].
  split; [|apply sort_desc_sorted].
  intros name n Hin.
  assert (E : n = count_occ string_dec (map username (rows chat_df)) name).
  { rewrite <- value_counts_get. symmetry.
    apply get_In; [apply NoDup_value_counts | assumption]. }
  split; [exact E|]. rewrite E.
  apply count_occ_In, index_value_counts.
  unfold Pd.index. apply in_map_iff. now exists (name, n).
Qed.

Lemma analyze_data_counts_witness :
  Pd.has_label "username" (columns demo_log) = true
  /\ (exists counts,
         analyze_data demo_log = inr counts
         /\ Pd.get counts "Bob" 0 = 1 /\ Pd.get counts "bob" 0 = 0)
  /\ analyze_data (mk_df [] []) = inl (KeyError "username").
Proof.
  split; [reflexivity|].
  destruct (analyze_data_counts demo_log) as [Hyes _].
  destruct (Hyes eq_refl) as (counts & E & _ & _ & Hget & _).
  split.
  - exists counts. split; [exact E|].
    split; [exact (Hget "Bob") | exact (Hget "bob")].
  - exact (proj2 (analyze_data_counts (mk_df [] [])) eq_refl).
Defined.

(** ** The users charted *)

Lemma sum_app (a b : Series nat) :
  Pd.sum (a ++ b)%list = Pd.sum a + Pd.sum b.
Proof. unfold Pd.sum. now rewrite map_app, list_sum_app. Qed.

Lemma sorted_app_le {A : Type} (R : A -> A -> Prop) (l1 l2 : list A) :
  StronglySorted R (l1 ++ l2)%list ->
  forall a b, In a l1 -> In b l2 -> R a b.
Proof.
  induction l1 as [|x l1 IH]; intros Hs a b Ha Hb; [contradiction|].
  cbn [app] in Hs. inversion Hs as [|? ? Hs' Hall]; subst.
  destruct Ha as [->|Ha]; [|now apply IH].
  rewrite Forall_forall in Hall. apply Hall, in_or_app. now right.
Qed.

Lemma sum_positive (s : Series nat) :
  (forall p, In p s -> 1 <= snd p) -> Pd.sum s = 0 -> s = [].
Proof.
  destruct s as [|p s]; [reflexivity|]. intros Hpos Hsum.
  rewrite sum_cons in Hsum. specialize (Hpos p (or_introl eq_refl)). lia.
Qed.

Lemma value_counts_positive (values : list string) (p : string * nat) :
  In p (Pd.value_counts values) -> 1 <= snd p.
Proof.
  destruct p as [name n]. intros Hin. cbn [snd].
  assert (E : n = count_occ string_dec values name).
  { rewrite <- value_counts_get. symmetry.
    apply get_In; [apply NoDup_value_counts | assumption]. }
  rewrite E. apply count_occ_In, index_value_counts.
  unfold Pd.index. apply in_map_iff. now exists (name, n).
Qed.

(** X4: of the counts of a log, [head(n)] keeps [n] users or all of them if
    there are fewer; no user left out has more messages than a user kept;
    the sum over the users kept, which the chart title prints, is at most
    the number of messages of the log and equals it exactly when no user is
    left out. *)
Theorem top_users_are_top (names : list string) (n : nat) :
  let counts := Pd.value_counts names in
  let top_users := Pd.head n counts in
  List.length top_users = Nat.min n (List.length counts)
  /\ (forall u c v d,
         In (u, c) top_users -> In (v, d) (skipn n counts) -> d <= c)
  /\ Pd.sum top_users <= List.length names
  /\ (Pd.sum top_users = List.length names <-> List.length counts <= n)
  /\ (List.length counts <= n ->
      chart_title_of top_users
      = "Top Users by Message Count (Total Messages: "
        ++ Str.format_thousands (List.length names) ++ ")").
Proof.
  cbv zeta. unfold Pd.head.
  set (counts := Pd.value_counts names).
  assert (Hsplit : Pd.sum (firstn n counts) + Pd.sum (skipn n counts)
                   = List.length names).
  { rewrite <- sum_app, firstn_skipn. apply sum_value_counts. }
  assert (Hiff : Pd.sum (firstn n counts) = List.length names
                 <-> List.length counts <= n).
  { split.
    - intros E.
      assert (Hrest : skipn n counts = []).
      { apply sum_positive; [|lia].
        intros p Hp. apply (value_counts_positive names).
        rewrite <- (firstn_skipn n (Pd.value_counts names)).
        apply in_or_app. now right. }
      apply (f_equal (@List.length _)) in Hrest.
      rewrite length_skipn in Hrest. cbn in Hrest. lia.
    - intros Hle. rewrite firstn_all2 by assumption. apply sum_value_counts. }
  split; [apply length_firstn|].
  split.
  - intros u c v d Hu Hv.
    pose proof (sort_desc_sorted snd (Pd.tally names)) as Hs.
    fold (Pd.value_counts names) in Hs. fold counts in Hs.
    rewrite <- (firstn_skipn n counts) in Hs.
    exact (sorted_app_le _ _ _ Hs (u, c) (v, d) Hu Hv).
  - split; [lia|]. split; [exact Hiff|].
    intros Hle. unfold chart_title_of. now rewrite (proj2 Hiff Hle).
Qed.

Lemma top_users_are_top_witness :
  (1 <= 2)
  /\ chart_title_of (Pd.head 3 (Pd.value_counts ["a"; "b"; "a"; "c"]))
     = "Top Users by Message Count (Total Messages: 4)".
Proof.
  split.
  - pose proof (top_users_are_top ["a"; "b"; "a"; "c"] 2)
      as (_ & Htop & _).
    apply (Htop "a" 2 "c" 1); now left.
  - pose proof (top_users_are_top ["a"; "b"; "a"; "c"] 3)
      as (_ & _ & _ & _ & Htitle).
    apply Htitle. cbn. lia.
Defined.

(** ** The totals and the listing *)

Lemma length_value_counts (values : list string) :
  List.length (Pd.value_counts values)
  = List.length (nodup string_dec values).
Proof.
  rewrite <- (length_map fst (Pd.value_counts values)).
  apply Permutation_length, NoDup_Permutation.
  - apply NoDup_value_counts.
  - apply NoDup_nodup.
  - intros k. rewrite nodup_In. apply index_value_counts.
Qed.

Lemma append_totals_run (fs : file_system) (names : list string)
    (filename : string) :
  append_totals_to_file fs (Pd.value_counts names) filename
  = match open_w fs filename with
    | None =>
        ([AppendText filename
            (totals_lines (List.length names)
               (List.length (nodup string_dec names)))],
         inr tt)
    | Some e => ([], inl e)
    end.
Proof.
  unfold append_totals_to_file, open_append, totals_lines.
  rewrite sum_value_counts, length_value_counts.
  now destruct (open_w fs filename).
Qed.

(** X5: given the counts [analyze_data] returns for a log,
    [append_totals_to_file] appends two lines that give the number of rows
    of the log and the number of distinct usernames, compared letter for
    letter; when the file cannot be opened it raises the error of [open]
    and logs nothing. *)
Theorem append_totals_lines (fs : file_system) (chat_df : DataFrame)
    (counts : Series nat) (filename : string) :
  analyze_data chat_df = inr counts ->
  append_totals_to_file fs counts filename
  = match open_w fs filename with
    | None =>
        ([AppendText filename
            [Str.newline ++ "Total Messages Sent: "
               ++ Str.of_nat (List.length (rows chat_df)) ++ Str.newline;
             "Total Participants: "
               ++ Str.of_nat
                    (List.length
                       (nodup string_dec (map username (rows chat_df))))
               ++ Str.newline]],
         inr tt)
    | Some e => ([], inl e)
    end.
Proof.
  unfold analyze_data, Pd.getitem.
  destruct (Pd.has_label "username" (columns chat_df)); [|discriminate].
  cbn [Pd.field String.eqb Ascii.eqb Bool.eqb]. intros H.
  inversion H; subst counts; clear H.
  rewrite append_totals_run, length_map. reflexivity.
Qed.

Lemma append_totals_lines_witness :
  append_totals_to_file demo_fs [("Bob", 1); ("Ann", 1)]
    "chattrans/s/user_message_counts.txt"
  = ([AppendText "chattrans/s/user_message_counts.txt"
        [Str.newline ++ "Total Messages Sent: 2" ++ Str.newline;
         "Total Participants: 2" ++ Str.newline]],
     inr tt).
Proof.
  exact (append_totals_lines demo_fs demo_log [("Bob", 1); ("Ann", 1)]
           "chattrans/s/user_message_counts.txt" eq_refl).
Defined.

Lemma list_sum_perm (l l' : list nat) :
  Permutation l l' -> list_sum l = list_sum l'.
Proof.
  unfold list_sum.
  induction 1 as [|x l l' _ IH|x y l|l l' l'' _ IH _ IH'];
    cbn [fold_right]; lia.
Qed.

Lemma groups_cover_pairs (s : Series nat) (ks : list nat) :
  NoDup ks -> (forall u k, In (u, k) s -> In k ks) ->
  Permutation (flat_map (fun k => filter (fun p => (snd p =? k)%nat) s) ks) s.
Proof.
  intros Hnd. induction s as [|[u c] s IH]; intros Hall.
  - cbn. induction ks as [|k ks IHks]; [constructor|].
    inversion Hnd; subst. now apply IHks.
  - etransitivity;
      [|apply perm_skip, IH; intros v k Hv; apply (Hall v); now right].
    etransitivity;
      [|apply (flat_map_pick
                 (fun k => filter (fun p => (snd p =? k)%nat) s) (u, c) c ks
                 Hnd);
        apply (Hall u); now left].
    apply Permutation_refl'. apply flat_map_ext. intros k.
    cbn [snd filter]. rewrite (Nat.eqb_sym c k).
    now destruct (k =? c)%nat.
Qed.

Lemma sum_filter_count (s : Series nat) (k : nat) :
  Pd.sum (filter (fun p => (snd p =? k)%nat) s)
  = k * List.length (filter (fun p => (snd p =? k)%nat) s).
Proof.
  induction s as [|[u c] s IH]; cbn [filter snd]; [cbn; lia|].
  destruct (Nat.eqb_spec c k) as [->|]; [|exact IH].
  rewrite sum_cons. cbn [snd List.length]. rewrite IH. lia.
Qed.

Lemma sum_flat_map (f : nat -> Series nat) (ks : list nat) :
  Pd.sum (flat_map f ks) = list_sum (map (fun k => Pd.sum (f k)) ks).
Proof.
  induction ks as [|k ks IH]; cbn [flat_map map list_sum fold_right];
    [reflexivity|].
  change (fold_right Nat.add 0 ?l) with (list_sum l).
  now rewrite sum_app, IH.
Qed.

(** X6: the listing accounts for every message: it has one line for each
    distinct count value, the lines together name as many users as the
    counts hold, and the counts times the sizes of their groups add up to the
    sum of the counts. *)
Theorem listing_accounts_for_all (message_count : Series nat) :
  let groups := sorted_grouped message_count in
  List.length (user_list_lines message_count)
  = List.length (nodup Nat.eq_dec (map snd message_count))
  /\ list_sum (map (fun g => List.length (snd g)) groups)
     = List.length message_count
  /\ list_sum (map (fun g => fst g * List.length (snd g)) groups)
     = Pd.sum message_count.
Proof.
  cbv zeta. unfold user_list_lines. rewrite length_map.
  rewrite sorted_grouped_rev.
  pose proof (group_keys_sorted message_count) as Hs.
  assert (Hnd : NoDup (rev (Pd.group_keys message_count)))
    by now apply NoDup_rev, ascending_NoDup.
  assert (Hall : forall u k, In (u, k) message_count ->
                             In k (rev (Pd.group_keys message_count))).
  { intros u k Hu. apply in_rev. rewrite rev_involutive.
    apply group_keys_In. now exists u. }
  split; [|split].
  - rewrite length_map. apply Permutation_length, NoDup_Permutation.
    + exact Hnd.
    + apply NoDup_nodup.
    + intros k. rewrite nodup_In, <- in_rev, group_keys_In, in_map_iff.
      split.
      * intros [u Hu]. now exists (u, k).
      * intros ([u c] & E & Hin). cbn in E. subst c. now exists u.
  - rewrite map_map.
    transitivity
      (List.length (flat_map (fun k => snd (group_of message_count k))
                      (rev (Pd.group_keys message_count)))).
    + now rewrite flat_map_concat_map, length_concat, map_map.
    + rewrite (Permutation_length (groups_cover message_count _ Hnd Hall)).
      apply length_map.
  - rewrite map_map.
    transitivity
      (Pd.sum (flat_map
                 (fun k => filter (fun p => (snd p =? k)%nat) message_count)
                 (rev (Pd.group_keys message_count)))).
    + rewrite sum_flat_map. f_equal. apply map_ext. intros k.
      unfold group_of. cbn [fst snd].
      now rewrite sum_filter_count, length_map.
    + unfold Pd.sum. apply list_sum_perm, Permutation_map.
      now apply groups_cover_pairs.
Qed.

(** ** The emote usage *)

Lemma index_dict_set (key k : string) (v : nat) (d : Series nat) :
  In k (Pd.index (Pd.dict_set key v d)) <-> k = key \/ In k (Pd.index d).
Proof.
  unfold Pd.index.
  induction d as [|[j w] d IH]; cbn [Pd.dict_set map fst In].
  - intuition congruence.
  - destruct (String.eqb_spec key j) as [->|]; cbn [map fst In];
      [|rewrite IH]; intuition congruence.
Qed.

Lemma NoDup_dict_set (key : string) (v : nat) (d : Series nat) :
  NoDup (Pd.index d) -> NoDup (Pd.index (Pd.dict_set key v d)).
Proof.
  induction d as [|[j w] d IH]; intros Hnd; cbn [Pd.dict_set].
  - repeat constructor. intros [].
  - destruct (String.eqb_spec key j) as [->|Hne]; [exact Hnd|].
    inversion Hnd as [|? ? Hj Hnd']; subst.
    change (NoDup (j :: Pd.index (Pd.dict_set key v d))).
    constructor; [|now apply IH].
    rewrite index_dict_set. intros [->|Hin]; [now apply Hne | now apply Hj].
Qed.

Lemma emote_fold_index (chat_df : DataFrame) (emotes : list string)
    (d : Series nat) :
  NoDup (Pd.index d) ->
  NoDup (Pd.index (fold_left (emote_step chat_df) emotes d))
  /\ forall k,
      In k (Pd.index (fold_left (emote_step chat_df) emotes d))
      <-> In k emotes \/ In k (Pd.index d).
Proof.
  revert d. induction emotes as [|e emotes IH]; intros d Hnd;
    cbn [fold_left In].
  - split; [assumption|]. intuition.
  - destruct (IH (emote_step chat_df d e)) as [H1 H2];
      [now apply NoDup_dict_set|].
    split; [assumption|]. intros k. rewrite H2. unfold emote_step.
    rewrite index_dict_set. intuition congruence.
Qed.

Lemma emote_fold_raised (chat_df : DataFrame) (emotes : list string) (e : exn) :
  fold_left
    (fun acc emote =>
       match acc with
       | inl e => inl e
       | inr d =>
           match Pd.getitem chat_df "message" with
           | inl e => inl e
           | inr msgs =>
               inr (Pd.dict_set emote
                      (list_sum (map (fun x => Str.count x emote) msgs)) d)
           end
       end)
    emotes (inl e)
  = inl e.
Proof. induction emotes as [|a emotes IH]; cbn [fold_left]; auto. Qed.

(** X7: [count_emote_usage] reads the message column once per emote: with
    an empty emote list it returns an empty series whatever the frame, with
    a non-empty list and no message column it raises [KeyError], and with
    the column its output has exactly the emotes of the list as labels, each
    once however often the list repeats it. *)
Theorem count_emote_usage_labels (chat_df : DataFrame) (emotes : list string) :
  count_emote_usage chat_df [] = inr []
  /\ (Pd.has_label "message" (columns chat_df) = false -> emotes <> [] ->
      count_emote_usage chat_df emotes = inl (KeyError "message"))
  /\ (Pd.has_label "message" (columns chat_df) = true ->
      exists usage,
        count_emote_usage chat_df emotes = inr usage
        /\ NoDup (Pd.index usage)
        /\ (forall k, In k (Pd.index usage) <-> In k emotes)
        /\ List.length usage = List.length (nodup string_dec emotes)).
Proof.
  split; [reflexivity|]. split.
  - intros Hno Hne. destruct emotes as [|e emotes]; [contradiction|].
    unfold count_emote_usage. cbn [fold_left].
    unfold Pd.getitem at 2. rewrite Hno. apply emote_fold_raised.
  - intros Hyes. rewrite (count_emote_usage_fold chat_df Hyes).
    destruct (emote_fold_index chat_df emotes []) as [Hnd Hin];
      [constructor|].
    eexists. split; [reflexivity|]. split; [exact Hnd|].
    assert (Hlabels : forall k,
               In k (Pd.index (fold_left (emote_step chat_df) emotes []))
               <-> In k emotes).
    { intros k. rewrite Hin. cbn. intuition. }
    split; [exact Hlabels|].
    rewrite <- (length_map fst).
    apply Permutation_length, NoDup_Permutation;
      [exact Hnd | apply NoDup_nodup |].
    intros k. rewrite nodup_In. apply Hlabels.
Qed.

Lemma count_emote_usage_labels_witness :
  count_emote_usage (mk_df [] []) ["aa"] = inl (KeyError "message")
  /\ exists usage,
      count_emote_usage demo_log ["aa"; "zzz"; "aa"] = inr usage
      /\ List.length usage = 2.
Proof.
  split.
  - apply (proj1 (proj2 (count_emote_usage_labels (mk_df [] []) ["aa"])));
      [reflexivity | discriminate].
  - destruct (proj2 (proj2 (count_emote_usage_labels demo_log
                               ["aa"; "zzz"; "aa"])) eq_refl)
      as (usage & E & _ & _ & Hlen).
    exists usage. split; [exact E | exact Hlen].
Defined.

(** X8: the emote file lists the usage sorted: the sorted series is a
    rearrangement of the usage, its counts never increase, and emotes with
    the same count stay in the order of the usage. *)
Theorem sorted_emote_usage_order (emote_usage : Series nat) :
  let sorted_emote_usage := Pd.sort_desc snd emote_usage in
  Permutation sorted_emote_usage emote_usage
  /\ StronglySorted (fun a b => snd b <= snd a) sorted_emote_usage
  /\ forall c,
      filter (fun p => (snd p =? c)%nat) sorted_emote_usage
      = filter (fun p => (snd p =? c)%nat) emote_usage.
Proof.
  cbv zeta. split; [apply sort_desc_perm|].
  split; [apply sort_desc_sorted|]. intros c. apply sort_desc_stable.
Qed.

(** ** The path of the chart *)

Lemma before_last_dot_png (base : string) :
  before_last_dot (base ++ ".png") = Some base.
Proof.
  induction base as [|c base IH]; [reflexivity|].
  cbn [String.append before_last_dot]. now rewrite IH.
Qed.

Lemma path_join_app (a b c : string) :
  b <> "" -> path_join a (b ++ c) = path_join a b ++ c.
Proof.
  intros Hb. unfold path_join. destruct a as [|x a]; [reflexivity|].
  destruct (Str.strip_prefix "/" _); str_norm; reflexivity.
Qed.

(** X9: the chart is written beside the reports as [top_users.html]: the
    extension of the output path is replaced, whatever dots the name of the
    streamer directory holds, and nothing is written under the [.png]
    name. *)
Theorem chart_written_as_html (fs : file_system) (top_users : Series nat)
    (streamer_path : string) :
  top_users <> [] ->
  open_w fs (path_join streamer_path "top_users.html") = None ->
  exists c,
    visualize_top_users fs top_users (path_join streamer_path "top_users.png")
    = ([WriteChart (path_join streamer_path "top_users.html") c], inr tt)
    /\ chart_x_range c = map fst top_users
    /\ chart_counts c = map snd top_users
    /\ chart_counts_formatted c
       = map (fun p => Str.format_thousands (snd p)) top_users
    /\ chart_title c = chart_title_of top_users.
Proof.
  intros Hne Hopen. unfold visualize_top_users.
  assert (Hpath : rsplit_dot_head (path_join streamer_path "top_users.png")
                  ++ ".html"
                  = path_join streamer_path "top_users.html").
  { change "top_users.png" with ("top_users" ++ ".png").
    rewrite path_join_app by discriminate.
    unfold rsplit_dot_head. rewrite before_last_dot_png.
    change "top_users.html" with ("top_users" ++ ".html").
    now rewrite path_join_app by discriminate. }
  rewrite Hpath, Hopen.
  destruct top_users as [|p top_users]; [contradiction|].
  eexists. split; [reflexivity|]. cbn [chart_x_range chart_counts
    chart_counts_formatted chart_title].
  repeat split. now rewrite map_map.
Qed.

Lemma chart_written_as_html_witness :
  exists c,
    visualize_top_users demo_fs [("Bob", 2); ("Ann", 1)]
      (path_join "chattrans/v1.2" "top_users.png")
    = ([WriteChart "chattrans/v1.2/top_users.html" c], inr tt)
    /\ chart_title c = "Top Users by Message Count (Total Messages: 3)".
Proof.
  destruct (chart_written_as_html demo_fs [("Bob", 2); ("Ann", 1)]
              "chattrans/v1.2")
    as (c & E & _ & _ & _ & Ht); [discriminate|reflexivity|].
  exists c. split; [exact E | exact Ht].
Defined.

(** ** Runs over a log with records *)

(** Both sides computed, the traces compared as right-nested lists. *)
Ltac trace_eq :=
  cbn [bind emit ret app fst snd];
  repeat rewrite <- app_assoc;
  cbn [app]; rewrite ?app_nil_r; reflexivity.

Lemma bind_emit {B : Type} (ev : event) (f : unit -> M B) :
  bind (emit ev) f = (ev :: fst (f tt), snd (f tt)).
Proof. unfold bind, emit. now destruct (f tt). Qed.

Lemma bind_returned {A B : Type} (t : list event) (a : A) (f : A -> M B) :
  bind (t, inr a) f = ((t ++ fst (f a))%list, snd (f a)).
Proof. unfold bind. now destruct (f a). Qed.

Lemma bind_raised {A B : Type} (t : list event) (e : exn) (f : A -> M B) :
  bind (t, inl e) f = (t, inl e).
Proof. reflexivity. Qed.

Lemma file_records_username (fs : file_system) (file_path : string)
    (e : entry) :
  In e (file_records fs file_path) -> username e <> "".
Proof.
  unfold file_records. destruct (read_text fs file_path) as [|chat_data];
    [contradiction|].
  unfold parse_lines. intros Hin. apply in_flat_map in Hin as (line & _ & Hin).
  apply parse_line_inv in Hin as (Hm & _ & _).
  now apply pattern_match_sound in Hm as (rest & _ & Hun & _).
Qed.

Lemma run_records_username (fs : file_system) (streamer_path : string) :
  count_occ string_dec (map username (run_records fs streamer_path)) "" = 0.
Proof.
  apply count_occ_not_In. intros Hin. apply in_map_iff in Hin as (e & E & Hin).
  unfold run_records in Hin. apply in_flat_map in Hin as (p & _ & Hin).
  now apply file_records_username in Hin.
Qed.

Lemma visualize_top_users_run (fs : file_system) (top_users : Series nat)
    (streamer_path : string) :
  top_users <> [] ->
  visualize_top_users fs top_users (path_join streamer_path "top_users.png")
  = match open_w fs (path_join streamer_path "top_users.html") with
    | Some e => ([], inl e)
    | None =>
        ([WriteChart (path_join streamer_path "top_users.html")
            (chart_of top_users)],
         inr tt)
    end.
Proof.
  intros Hne. unfold visualize_top_users.
  assert (Hpath : rsplit_dot_head (path_join streamer_path "top_users.png")
                  ++ ".html"
                  = path_join streamer_path "top_users.html").
  { change "top_users.png" with ("top_users" ++ ".png").
    rewrite path_join_app by discriminate.
    unfold rsplit_dot_head. rewrite before_last_dot_png.
    change "top_users.html" with ("top_users" ++ ".html").
    now rewrite path_join_app by discriminate. }
  rewrite Hpath. destruct top_users as [|p top_users]; [contradiction|].
  now destruct (open_w fs (path_join streamer_path "top_users.html")).
Qed.

Lemma save_user_list_run (fs : file_system) (message_count : Series nat)
    (filename : string) :
  save_user_list_to_file fs message_count filename
  = match open_w fs filename with
    | None => ([WriteText filename (user_list_lines message_count)], inr tt)
    | Some e => ([write_error filename e], inr tt)
    end.
Proof.
  unfold save_user_list_to_file, open_write.
  now destruct (open_w fs filename).
Qed.

Lemma save_emote_usage_run (fs : file_system) (emote_usage : Series nat)
    (filename : string) :
  save_emote_usage_to_file fs emote_usage filename
  = match open_w fs filename with
    | None => ([WriteText filename (emote_lines emote_usage)], inr tt)
    | Some e => ([write_error filename e], inr tt)
    end.
Proof.
  unfold save_emote_usage_to_file, open_write.
  now destruct (open_w fs filename).
Qed.

Lemma head_value_counts_nonempty (names : list string) :
  names <> [] -> Pd.head TOP_USERS_COUNT (Pd.value_counts names) <> [].
Proof.
  intros Hne E.
  assert (Hlen : List.length (Pd.value_counts names) <> 0).
  { intros Hz. pose proof (sum_value_counts names) as Hs.
    destruct (Pd.value_counts names); [|discriminate].
    cbn in Hs. destruct names; [contradiction|discriminate]. }
  destruct (Pd.value_counts names); [contradiction|discriminate].
Qed.

Section RunOverLog.

Variable fs : file_system.
Variable modify_html_files : string -> M unit.
Variable streamer_path : string.

Hypothesis makedirs_out : makedirs fs streamer_path = None.
Hypothesis makedirs_html : makedirs fs (path_join streamer_path "html") = None.
Hypothesis has_records : run_records fs streamer_path <> [].

Let counts : Series nat :=
  Pd.value_counts (map username (run_records fs streamer_path)).
Let listing : string := path_join streamer_path "user_message_counts.txt".

Lemma run_over_log :
  process_streamer_data fs modify_html_files streamer_path
  = match open_w fs (path_join streamer_path "top_users.html") with
    | Some e => (run_prefix fs streamer_path, inl e)
    | None =>
        match open_w fs listing with
        | Some e =>
            (app (run_prefix fs streamer_path)
               [WriteChart (path_join streamer_path "top_users.html")
                  (chart_of (Pd.head TOP_USERS_COUNT counts));
                write_error listing e],
             inl e)
        | None =>
            (app (run_prefix fs streamer_path)
               (app
                  [WriteChart (path_join streamer_path "top_users.html")
                     (chart_of (Pd.head TOP_USERS_COUNT counts));
                   WriteText listing (user_list_lines counts);
                   AppendText listing
                     (totals_lines
                        (List.length (run_records fs streamer_path))
                        (List.length
                           (nodup string_dec
                              (map username (run_records fs streamer_path)))));
                   match open_w fs (path_join streamer_path "emote_usage.txt")
                   with
                   | None =>
                       WriteText (path_join streamer_path "emote_usage.txt")
                         (emote_lines
                            (Pd.sort_desc snd
                               (fold_left
                                  (emote_step
                                     (mk_df entry_columns
                                        (run_records fs streamer_path)))
                                  emotes [])))
                   | Some e =>
                       write_error (path_join streamer_path "emote_usage.txt") e
                   end;
                   LogInfo "Final count for : 0"]
                  (fst (modify_html_files (path_join streamer_path "html")))),
             snd (modify_html_files (path_join streamer_path "html")))
        end
    end.
Proof.
  unfold process_streamer_data, os_makedirs.
  rewrite makedirs_out, makedirs_html.
  assert (Hglob : glob_txt fs streamer_path <> []).
  { intros E. apply has_records. unfold run_records. now rewrite E. }
  destruct (concatenate_dfs_spec fs _ Hglob) as (df & E & Hr & Hc).
  fold (run_records fs streamer_path) in Hr.
  assert (Hdf : df = mk_df entry_columns (run_records fs streamer_path)).
  { destruct df as [cols rws]. cbn [rows columns] in Hr, Hc. subst rws.
    destruct Hc as [[_ Hnil]| ->]; [now apply has_records in Hnil|reflexivity]. }
  subst df.
  unfold run_prefix.
  destruct (glob_txt fs streamer_path) as [|p ps] eqn:G; [contradiction|].
  rewrite E. clear E.
  assert (Hnames : map username (run_records fs streamer_path) <> []).
  { intros Hn. apply map_eq_nil in Hn. now apply has_records. }
  cbn [bind emit lift].
  change (Pd.getitem
            {| columns := entry_columns;
               rows := run_records fs streamer_path |} "timestamp")
    with (@inr exn _ (map timestamp (run_records fs streamer_path))).
  change (analyze_data
            {| columns := entry_columns;
               rows := run_records fs streamer_path |})
    with (@inr exn _ counts).
  cbn [bind emit lift].
  rewrite (visualize_top_users_run fs (Pd.head TOP_USERS_COUNT counts)
             streamer_path (head_value_counts_nonempty _ Hnames)).
  rewrite (count_emote_usage_fold
             {| columns := entry_columns;
                rows := run_records fs streamer_path |} eq_refl).
  rewrite save_user_list_run, save_emote_usage_run.
  unfold counts, listing. rewrite append_totals_run, length_map.
  cbn [for_each TARGET_USERS Str.lower]. rewrite value_counts_get.
  rewrite run_records_username.
  destruct (open_w fs (path_join streamer_path "top_users.html"));
    [trace_eq|].
  destruct (open_w fs (path_join streamer_path "user_message_counts.txt"));
    [trace_eq|].
  destruct (modify_html_files (path_join streamer_path "html")) as [t r].
  destruct (open_w fs (path_join streamer_path "emote_usage.txt"));
    trace_eq.
Qed.

End RunOverLog.

(** X10: over a log with at least one record, when the directories can be
    made and the chart and the listing can be opened, a run writes the chart
    of the first [TOP_USERS_COUNT] users, the listing, the two totals lines
    and the emote file, in this order, logs "Final count for : 0" because no
    parsed username is empty, and ends the way the HTML post-processing
    ends; when the emote file cannot be opened, the error is logged and the
    run goes on. *)
Theorem run_writes_reports (fs : file_system)
    (modify_html_files : string -> M unit) (streamer_path : string) :
  makedirs fs streamer_path = None ->
  makedirs fs (path_join streamer_path "html") = None ->
  run_records fs streamer_path <> [] ->
  open_w fs (path_join streamer_path "top_users.html") = None ->
  open_w fs (path_join streamer_path "user_message_counts.txt") = None ->
  let names := map username (run_records fs streamer_path) in
  let counts := Pd.value_counts names in
  process_streamer_data fs modify_html_files streamer_path
  = (app (run_prefix fs streamer_path)
       (app
          [WriteChart (path_join streamer_path "top_users.html")
             (chart_of (Pd.head TOP_USERS_COUNT counts));
           WriteText (path_join streamer_path "user_message_counts.txt")
             (user_list_lines counts);
           AppendText (path_join streamer_path "user_message_counts.txt")
             (totals_lines (List.length (run_records fs streamer_path))
                (List.length (nodup string_dec names)));
           match open_w fs (path_join streamer_path "emote_usage.txt") with
           | None =>
               WriteText (path_join streamer_path "emote_usage.txt")
                 (emote_lines
                    (Pd.sort_desc snd
                       (fold_left
                          (emote_step
                             (mk_df entry_columns
                                (run_records fs streamer_path)))
                          emotes [])))
           | Some e =>
               write_error (path_join streamer_path "emote_usage.txt") e
           end;
           LogInfo "Final count for : 0"]
          (fst (modify_html_files (path_join streamer_path "html")))),
     snd (modify_html_files (path_join streamer_path "html"))).
Proof.
  intros Hout Hhtml Hrec Hchart Hlisting. cbv zeta.
  rewrite (run_over_log fs modify_html_files streamer_path Hout Hhtml Hrec).
  now rewrite Hchart, Hlisting.
Qed.

Lemma run_writes_reports_witness :
  process_streamer_data demo_fs (fun _ => ret tt) "chattrans/s"
  = ([LogInfo "Processing data for streamer: chattrans/s";
      MakeDirs "chattrans/s"; MakeDirs "chattrans/s/html";
      LogError ("Error reading file chattrans/s/2.txt: "
                ++ "'utf-8' codec can't decode byte 0xff");
      WriteChart "chattrans/s/top_users.html"
        (chart_of [("Bob", 1); ("bob", 1); ("Ann", 1)]);
      WriteText "chattrans/s/user_message_counts.txt"
        ["<li>Bob, bob and Ann: 1 messages each</li>" ++ Str.newline];
      AppendText "chattrans/s/user_message_counts.txt" (totals_lines 3 3);
      WriteText "chattrans/s/emote_usage.txt"
        (emote_lines (map (fun e => (e, 0)) emotes));
      LogInfo "Final count for : 0"],
     inr tt).
Proof.
  rewrite (run_writes_reports demo_fs (fun _ => ret tt) "chattrans/s");
    [reflexivity | reflexivity | reflexivity | | reflexivity | reflexivity].
  intros H. vm_compute in H. discriminate H.
Defined.

(** X11: over a log with at least one record, when the chart file cannot
    be opened the error of [open] ends the run: the read errors have been
    logged and the directories made, and no chart, listing, totals or emote
    file is written. *)
Theorem run_stops_without_chart (fs : file_system)
    (modify_html_files : string -> M unit) (streamer_path : string) (e : exn) :
  makedirs fs streamer_path = None ->
  makedirs fs (path_join streamer_path "html") = None ->
  run_records fs streamer_path <> [] ->
  open_w fs (path_join streamer_path "top_users.html") = Some e ->
  process_streamer_data fs modify_html_files streamer_path
  = (run_prefix fs streamer_path, inl e).
Proof.
  intros Hout Hhtml Hrec Hchart.
  rewrite (run_over_log fs modify_html_files streamer_path Hout Hhtml Hrec).
  now rewrite Hchart.
Qed.

Lemma run_stops_without_chart_witness :
  process_streamer_data locked_fs (fun _ => ret tt) "chattrans/s"
  = ([LogInfo "Processing data for streamer: chattrans/s";
      MakeDirs "chattrans/s"; MakeDirs "chattrans/s/html";
      LogError ("Error reading file chattrans/s/2.txt: "
                ++ "'utf-8' codec can't decode byte 0xff")],
     inl (OSError "Permission denied")).
Proof.
  rewrite (run_stops_without_chart locked_fs (fun _ => ret tt) "chattrans/s"
             (OSError "Permission denied"));
    [reflexivity | reflexivity | reflexivity | | reflexivity].
  intros H. vm_compute in H. discriminate H.
Defined.

(** X12: over a log with at least one record, when the listing cannot be
    opened, [save_user_list_to_file] logs the error and returns, and
    [append_totals_to_file], which opens the same file unguarded, raises it:
    the run ends there, after the chart, without the emote file and without
    the HTML post-processing. *)
Theorem run_stops_without_listing (fs : file_system)
    (modify_html_files : string -> M unit) (streamer_path : string) (e : exn) :
  makedirs fs streamer_path = None ->
  makedirs fs (path_join streamer_path "html") = None ->
  run_records fs streamer_path <> [] ->
  open_w fs (path_join streamer_path "top_users.html") = None ->
  open_w fs (path_join streamer_path "user_message_counts.txt") = Some e ->
  process_streamer_data fs modify_html_files streamer_path
  = (app (run_prefix fs streamer_path)
       [WriteChart (path_join streamer_path "top_users.html")
          (chart_of
             (Pd.head TOP_USERS_COUNT
                (Pd.value_counts
                   (map username (run_records fs streamer_path)))));
        write_error (path_join streamer_path "user_message_counts.txt") e],
     inl e).
Proof.
  intros Hout Hhtml Hrec Hchart Hlisting.
  rewrite (run_over_log fs modify_html_files streamer_path Hout Hhtml Hrec).
  now rewrite Hchart, Hlisting.
Qed.

Lemma run_stops_without_listing_witness :
  process_streamer_data listing_locked_fs (fun _ => ret tt) "chattrans/s"
  = ([LogInfo "Processing data for streamer: chattrans/s";
      MakeDirs "chattrans/s"; MakeDirs "chattrans/s/html";
      LogError ("Error reading file chattrans/s/2.txt: "
                ++ "'utf-8' codec can't decode byte 0xff");
      WriteChart "chattrans/s/top_users.html"
        (chart_of [("Bob", 1); ("bob", 1); ("Ann", 1)]);
      LogError ("Error writing to file chattrans/s/user_message_counts.txt: "
                ++ "Permission denied")],
     inl (OSError "Permission denied")).
Proof.
  rewrite (run_stops_without_listing listing_locked_fs (fun _ => ret tt)
             "chattrans/s" (OSError "Permission denied"));
    [reflexivity | reflexivity | reflexivity | | reflexivity | reflexivity].
  intros H. vm_compute in H. discriminate H.
Defined.

(** ** The entry point *)

Lemma for_each_returns {A : Type} (body : A -> M unit) (xs : list A) :
  Forall (fun x => snd (body x) = inr tt) xs ->
  for_each xs body = (flat_map (fun x => fst (body x)) xs, inr tt).
Proof.
  induction 1 as [|x xs Hx _ IH]; [reflexivity|].
  cbn [for_each flat_map]. rewrite IH.
  destruct (body x) as [t r]. cbn [snd] in Hx. subst r. reflexivity.
Qed.

Lemma for_each_raises {A : Type} (body : A -> M unit)
    (before after : list A) (x : A) (t : list event) (e : exn) :
  Forall (fun y => snd (body y) = inr tt) before ->
  body x = (t, inl e) ->
  for_each (before ++ x :: after)%list body
  = ((flat_map (fun y => fst (body y)) before ++ t)%list, inl e).
Proof.
  intros Hok Hx. induction Hok as [|y before Hy _ IH].
  - cbn [app for_each flat_map]. now rewrite Hx.
  - cbn [app for_each flat_map]. rewrite IH.
    destruct (body y) as [ty ry]. cbn [snd] in Hy. subst ry.
    cbn [bind fst]. now rewrite app_assoc.
Qed.

(** X13: [main] processes the directories of [chattrans/] in the order of
    the glob, files that are not directories left out; when every run
    returns, their traces follow one another; the first run that raises ends
    the program with its exception, and the directories after it are not
    processed; without any directory only a warning is logged. *)
Theorem main_runs_until_failure (fs : file_system)
    (modify_html_files : string -> M unit) (found : list string)
    (isdir : string -> bool) :
  let run := process_streamer_data fs modify_html_files in
  (filter isdir found = [] ->
   main fs modify_html_files found isdir
   = ([LogWarning "No streamer directories found in chattrans/"], inr tt))
  /\ (Forall (fun d => snd (run d) = inr tt) (filter isdir found) ->
      filter isdir found <> [] ->
      main fs modify_html_files found isdir
      = (flat_map (fun d => fst (run d)) (filter isdir found), inr tt))
  /\ (forall before d after t e,
         filter isdir found = (before ++ d :: after)%list ->
         Forall (fun d' => snd (run d') = inr tt) before ->
         run d = (t, inl e) ->
         main fs modify_html_files found isdir
         = ((flat_map (fun d' => fst (run d')) before ++ t)%list, inl e)).
Proof.
  cbv zeta. unfold main. split; [|split].
  - intros ->. reflexivity.
  - intros Hok Hne. destruct (filter isdir found) as [|d ds] eqn:E;
      [contradiction|].
    now apply for_each_returns.
  - intros before d after t e E Hok Hd. rewrite E.
    destruct (before ++ d :: after)%list as [|d0 ds] eqn:E';
      [now destruct before|].
    rewrite <- E'. now apply for_each_raises.
Qed.

Lemma main_runs_until_failure_witness :
  main two_streamers_fs (fun _ => ret tt)
    ["chattrans/a"; "chattrans/notes.md"; "chattrans/b"; "chattrans/c"]
    (fun p => negb (p =? "chattrans/notes.md"))
  = ((fst (process_streamer_data two_streamers_fs (fun _ => ret tt)
             "chattrans/a")
      ++ [LogInfo "Processing data for streamer: chattrans/b";
          MakeDirs "chattrans/b"; MakeDirs "chattrans/b/html"])%list,
     inl (KeyError "timestamp")).
Proof.
  pose proof (main_runs_until_failure two_streamers_fs (fun _ => ret tt)
                ["chattrans/a"; "chattrans/notes.md"; "chattrans/b";
                 "chattrans/c"]
                (fun p => negb (p =? "chattrans/notes.md")))
    as (_ & _ & Hstop).
  rewrite (Hstop ["chattrans/a"] "chattrans/b" ["chattrans/c"]
             [LogInfo "Processing data for streamer: chattrans/b";
              MakeDirs "chattrans/b"; MakeDirs "chattrans/b/html"]
             (KeyError "timestamp")).
  - cbn [flat_map]. now rewrite app_nil_r.
  - reflexivity.
  - constructor; [reflexivity | constructor].
  - reflexivity.
Defined.

(** ** Runs over a log without records *)

Lemma parse_chat_data_frame (fs : file_system) (file_path : string) :
  parse_chat_data fs file_path
  = (file_log fs file_path, inr (file_frame fs file_path)).
Proof.
  unfold parse_chat_data, file_log, file_frame.
  now destruct (read_text fs file_path).
Qed.

Lemma parse_all_frames (fs : file_system) (file_paths : list string) :
  parse_all fs file_paths
  = (flat_map (file_log fs) file_paths, inr (map (file_frame fs) file_paths)).
Proof.
  induction file_paths as [|p ps IH]; [reflexivity|].
  cbn [parse_all flat_map map]. rewrite parse_chat_data_frame, IH.
  cbn. now rewrite app_nil_r.
Qed.

Lemma file_frame_rows (fs : file_system) (file_path : string) :
  rows (file_frame fs file_path) = file_records fs file_path.
Proof.
  unfold file_frame, file_records.
  destruct (read_text fs file_path); [reflexivity|].
  apply DataFrame_of_frame.
Qed.

(** Columns of a concatenation of frames all without rows: the three entry
    columns as soon as one read failed, none otherwise. *)
Lemma empty_frames_columns (fs : file_system) (file_paths : list string)
    (acc : list string) :
  acc = [] \/ acc = entry_columns ->
  flat_map (file_records fs) file_paths = [] ->
  fold_left Pd.union_labels (map columns (map (file_frame fs) file_paths)) acc
  = match acc with
    | [] => if some_read_failed fs file_paths then entry_columns else []
    | _ => entry_columns
    end.
Proof.
  revert acc. induction file_paths as [|p ps IH]; intros acc Hacc Hrec.
  - destruct Hacc as [->| ->]; reflexivity.
  - cbn [flat_map] in Hrec. apply app_eq_nil in Hrec as [Hp Hps].
    cbn [map fold_left some_read_failed existsb].
    assert (Hcol : columns (file_frame fs p)
                   = match read_text fs p with
                     | inl _ => entry_columns
                     | inr _ => []
                     end).
    { unfold file_frame. unfold file_records in Hp.
      destruct (read_text fs p); [reflexivity|]. now rewrite Hp. }
    rewrite Hcol.
    destruct (read_text fs p); destruct Hacc as [->| ->];
      rewrite IH by (auto; now right); reflexivity.
Qed.

Lemma concat_frames (dfs : list DataFrame) :
  dfs <> [] ->
  Pd.concat dfs
  = inr (mk_df (fold_left Pd.union_labels (map columns dfs) [])
               (flat_map rows dfs)).
Proof. now destruct dfs. Qed.

(** X14: over a directory with at least one [.txt] file whose files yield
    no record, a run raises before it writes anything: [KeyError] on the
    timestamp column when every file could be read, the [ValueError] of
    [max] on an empty sequence when at least one could not. *)
Theorem run_over_empty_log (fs : file_system)
    (modify_html_files : string -> M unit) (streamer_path : string) :
  makedirs fs streamer_path = None ->
  makedirs fs (path_join streamer_path "html") = None ->
  glob_txt fs streamer_path <> [] ->
  run_records fs streamer_path = [] ->
  process_streamer_data fs modify_html_files streamer_path
  = (run_prefix fs streamer_path,
     inl (if some_read_failed fs (glob_txt fs streamer_path)
          then ValueError "max() arg is an empty sequence"
          else KeyError "timestamp")).
Proof.
  intros Hout Hhtml Hglob Hrec.
  unfold process_streamer_data, os_makedirs, run_prefix.
  rewrite Hout, Hhtml. unfold concatenate_dfs. rewrite parse_all_frames.
  unfold run_records in Hrec.
  destruct (glob_txt fs streamer_path) as [|p ps] eqn:G; [contradiction|].
  assert (Hconcat :
    Pd.concat (map (file_frame fs) (p :: ps))
    = inr (mk_df (if some_read_failed fs (p :: ps) then entry_columns else [])
                 [])).
  { rewrite concat_frames by discriminate.
    rewrite (empty_frames_columns fs (p :: ps) [] (or_introl eq_refl) Hrec).
    f_equal. f_equal.
    rewrite flat_map_concat_map, map_map.
    rewrite <- Hrec, flat_map_concat_map. f_equal. apply map_ext.
    intros q. apply file_frame_rows. }
  cbn [bind emit lift]. rewrite Hconcat.
  destruct (some_read_failed fs (p :: ps)); cbn;
    rewrite ?app_nil_r; reflexivity.
Qed.

Lemma run_over_empty_log_witness :
  process_streamer_data two_streamers_fs (fun _ => ret tt) "chattrans/b"
  = ([LogInfo "Processing data for streamer: chattrans/b";
      MakeDirs "chattrans/b"; MakeDirs "chattrans/b/html"],
     inl (KeyError "timestamp")).
Proof.
  rewrite (run_over_empty_log two_streamers_fs (fun _ => ret tt)
             "chattrans/b");
    [reflexivity | reflexivity | reflexivity | discriminate | reflexivity].
Defined.

(** ** Aggregates and the order of the log *)

Lemma emote_total_perm (rows1 rows2 : list entry) (cols1 cols2 : list string)
    (emote : string) :
  Permutation rows1 rows2 ->
  emote_total (mk_df cols1 rows1) emote = emote_total (mk_df cols2 rows2) emote.
Proof.
  intros Hp. unfold emote_total. cbn [rows].
  apply list_sum_perm. now do 2 apply Permutation_map.
Qed.

Lemma emote_fold_ext (df1 df2 : DataFrame) (emotes : list string)
    (d : Series nat) :
  (forall emote, emote_total df1 emote = emote_total df2 emote) ->
  fold_left (emote_step df1) emotes d = fold_left (emote_step df2) emotes d.
Proof.
  intros Heq. revert d. induction emotes as [|e emotes IH]; intros d;
    cbn [fold_left]; [reflexivity|].
  unfold emote_step at 2 4. now rewrite Heq, IH.
Qed.

(** X15: the aggregates do not depend on the order of the log: for two logs
    with the same records in any order, every name has the same count and
    [count_emote_usage] returns the same series. *)
Theorem aggregates_ignore_order (rows1 rows2 : list entry)
    (emotes : list string) :
  Permutation rows1 rows2 ->
  (exists counts1 counts2,
      analyze_data (mk_df entry_columns rows1) = inr counts1
      /\ analyze_data (mk_df entry_columns rows2) = inr counts2
      /\ Permutation counts1 counts2
      /\ forall name, Pd.get counts1 name 0 = Pd.get counts2 name 0)
  /\ count_emote_usage (mk_df entry_columns rows1) emotes
     = count_emote_usage (mk_df entry_columns rows2) emotes.
Proof.
  intros Hp. split.
  - exists (Pd.value_counts (map username rows1)),
           (Pd.value_counts (map username rows2)).
    split; [reflexivity|]. split; [reflexivity|].
    assert (Hget : forall name,
               Pd.get (Pd.value_counts (map username rows1)) name 0
               = Pd.get (Pd.value_counts (map username rows2)) name 0).
    { intros name. rewrite !value_counts_get.
      apply Permutation_count_occ. now apply Permutation_map. }
    split; [|exact Hget].
    apply NoDup_Permutation.
    + eapply NoDup_map_inv. apply NoDup_value_counts.
    + eapply NoDup_map_inv. apply NoDup_value_counts.
    + assert (Hsub : forall names names' p,
                 (forall name, Pd.get (Pd.value_counts names) name 0
                               = Pd.get (Pd.value_counts names') name 0) ->
                 In p (Pd.value_counts names) ->
                 In p (Pd.value_counts names')).
      { intros names names' [name n] Hsame Hin.
        pose proof (get_In _ _ _ (NoDup_value_counts names) Hin) as Hn.
        pose proof (value_counts_positive names _ Hin) as Hpos.
        cbn [snd] in Hpos. rewrite Hsame in Hn.
        assert (Hidx : In name (Pd.index (Pd.value_counts names'))).
        { apply index_value_counts.
          rewrite value_counts_get in Hn.
          apply (count_occ_In string_dec). lia. }
        unfold Pd.index in Hidx. apply in_map_iff in Hidx as ([k m] & E & Him).
        cbn in E. subst k.
        rewrite (get_In _ _ _ (NoDup_value_counts names') Him) in Hn.
        now subst m. }
      intros p. split; apply Hsub; [exact Hget|].
      intros name. symmetry. apply Hget.
  - rewrite (count_emote_usage_fold (mk_df entry_columns rows1) eq_refl).
    rewrite (count_emote_usage_fold (mk_df entry_columns rows2) eq_refl).
    f_equal.
    apply emote_fold_ext. intros emote. now apply emote_total_perm.
Qed.

Lemma aggregates_ignore_order_witness :
  exists counts1 counts2,
    analyze_data
      (mk_df entry_columns
         [mk_entry "1" "Bob" "hi"; mk_entry "2" "Ann" "yo"]) = inr counts1
    /\ analyze_data
         (mk_df entry_columns
            [mk_entry "2" "Ann" "yo"; mk_entry "1" "Bob" "hi"]) = inr counts2
    /\ Permutation counts1 counts2.
Proof.
  destruct (aggregates_ignore_order
              [mk_entry "1" "Bob" "hi"; mk_entry "2" "Ann" "yo"]
              [mk_entry "2" "Ann" "yo"; mk_entry "1" "Bob" "hi"] [])
    as [(c1 & c2 & E1 & E2 & Hp & _) _]; [apply perm_swap|].
  exists c1, c2. auto.
Defined.

(** ** Bounds on the emote totals *)




